(** * gocron: recurrence computation and dispatch order

    A shallow embedding of [gocron.go] (package [gocron]) together with
    the small part of Go's standard library it calls ([time], [strconv],
    [strings], [reflect], [sort]), and the properties of the scheduler
    stated over that embedding. *)

From Stdlib Require Import ZArith Lia Bool Ascii String List.
From stdpp Require Import base option list sorting strings gmap.

Local Open Scope Z_scope.

(** ** Fixed-width integers

    Go's [uint64] and [int64] are kept as [Z] with the wrap-around of
    every operation written out. *)

Definition toUint64 (z : Z) : Z := z mod 2 ^ 64.

Definition toInt64 (z : Z) : Z := (z + 2 ^ 63) mod 2 ^ 64 - 2 ^ 63.

Definition inInt64 (z : Z) : Prop := - 2 ^ 63 <= z < 2 ^ 63.

(** [a * b] on [uint64] operands. *)
Definition uint64_mul (a b : Z) : Z := toUint64 (a * b).

(** ** Package [time]

    Instants are nanoseconds since the Unix epoch.  A [Location] is a
    zone with one offset from UTC: a location whose offset changes
    (daylight saving) is not modelled.  The properties below are written
    so as not to lean on that: of an instant built by [Date] they state
    the calendar day and the clock time it was built from, and of an
    instant reached by [Add] the elapsed time added; none of them turns
    elapsed time into calendar days, which is right only while the
    offset stays the same.  A [Time] remembers whether it carries a
    monotonic clock reading and which location it is presented in,
    because Go's [==] on [time.Time] compares those too. *)

Module time.

Record Location : Type := FixedZone { zoneOffset : Z }.

Record Time : Type := mkTime {
  unixNano : Z;
  hasMonotonic : bool;
  location : Location
}.

(** [time.Duration] is an [int64] count of nanoseconds. *)
Definition Duration : Type := Z.

Definition Second : Duration := 1000000000.

(** [a * b] on [time.Duration] operands. *)
Definition Duration_mul (a b : Duration) : Duration := toInt64 (a * b).

Definition secondsPerDay : Z := 86400.

(** Days from 1970-01-01 to the civil date [year]-[month]-[day] in the
    proleptic Gregorian calendar, [month] in 1..12.  Linear in [day], so
    a day outside the month's range overflows into the neighbouring
    months as [time.Date] documents. *)
Definition daysFromCivil (year month day : Z) : Z :=
  let y := if month <=? 2 then year - 1 else year in
  let era := y / 400 in
  let yoe := y - era * 400 in
  let mp := if 2 <? month then month - 3 else month + 9 in
  let doy := (153 * mp + 2) / 5 + day - 1 in
  let doe := yoe * 365 + yoe / 4 - yoe / 100 + doy in
  era * 146097 + doe - 719468.

(** The civil date of the day [z] days after 1970-01-01. *)
Definition civilFromDays (z : Z) : Z * Z * Z :=
  let z := z + 719468 in
  let era := z / 146097 in
  let doe := z - era * 146097 in
  let yoe := (doe - doe / 1460 + doe / 36524 - doe / 146096) / 365 in
  let doy := doe - (365 * yoe + yoe / 4 - yoe / 100) in
  let mp := (5 * doy + 2) / 153 in
  let d := doy - (153 * mp + 2) / 5 + 1 in
  let m := if mp <? 10 then mp + 3 else mp - 9 in
  ((if m <=? 2 then yoe + era * 400 + 1 else yoe + era * 400), m, d).

(** [time.Weekday]: Sunday = 0, ..., Saturday = 6. *)
Inductive Weekday : Type :=
  Sunday | Monday | Tuesday | Wednesday | Thursday | Friday | Saturday.

Definition Weekday_int (d : Weekday) : Z :=
  match d with
  | Sunday => 0 | Monday => 1 | Tuesday => 2 | Wednesday => 3
  | Thursday => 4 | Friday => 5 | Saturday => 6
  end.

Definition Weekday_of_int (z : Z) : Weekday :=
  match z with
  | 0 => Sunday | 1 => Monday | 2 => Tuesday | 3 => Wednesday
  | 4 => Thursday | 5 => Friday | _ => Saturday
  end.

Definition Weekday_eqb (a b : Weekday) : bool :=
  Weekday_int a =? Weekday_int b.

(** [time.Unix(sec, nsec)]: presented in [time.Local], no monotonic
    reading. *)
Definition Unix (Local : Location) (sec nsec : Z) : Time :=
  mkTime (sec * 10 ^ 9 + nsec) false Local.

(** [time.Now()] when the wall clock reads [clock] nanoseconds since the
    epoch: presented in [time.Local], with a monotonic reading. *)
Definition Now (Local : Location) (clock : Z) : Time :=
  mkTime clock true Local.

(** [t == u] on [time.Time] values: all fields are compared (two
    locations are the same pointer when they are the same zone). *)
Definition Time_eqb (t u : Time) : bool :=
  (unixNano t =? unixNano u)
  && Bool.eqb (hasMonotonic t) (hasMonotonic u)
  && (zoneOffset (location t) =? zoneOffset (location u)).

(** [t.After(u)]; the monotonic clock is taken to agree with the wall
    clock. *)
Definition Time_After (t u : Time) : bool := unixNano u <? unixNano t.

(** [t.Add(d)]. *)
Definition Time_Add (t : Time) (d : Duration) : Time :=
  mkTime (unixNano t + d) (hasMonotonic t) (location t).

(** The day, counted from 1970-01-01, that [t] falls on in its own
    location. *)
Definition absDays (t : Time) : Z :=
  (unixNano t / 10 ^ 9 + zoneOffset (location t)) / secondsPerDay.

Definition Time_Year (t : Time) : Z := (civilFromDays (absDays t)).1.1.
Definition Time_Month (t : Time) : Z := (civilFromDays (absDays t)).1.2.
Definition Time_Day (t : Time) : Z := (civilFromDays (absDays t)).2.

(** 1970-01-01 was a Thursday. *)
Definition Time_Weekday (t : Time) : Weekday :=
  Weekday_of_int ((absDays t + 4) mod 7).

(** [time.Date(year, month, day, hour, min, sec, nsec, loc)]: the month
    is normalised into the year; day, hour, minute and second enter
    linearly, which is the normalisation of out-of-range values.  The
    civil time is resolved with the one offset of [loc]. *)
Definition Date (year month day hour min sec nsec : Z) (loc : Location)
  : Time :=
  let m := month - 1 in
  let year := year + m / 12 in
  let month := m mod 12 + 1 in
  let d := daysFromCivil year month day in
  let abs := d * secondsPerDay + hour * 3600 + min * 60 + sec in
  let unix := abs - zoneOffset loc in
  mkTime (unix * 10 ^ 9 + nsec) false loc.

End time.

(** ** Packages [strings] and [strconv] *)

Module strings.

(** [strings.Split(s, sep)] for a one-byte separator. *)
Fixpoint Split (s : string) (sep : ascii) : list string :=
  match s with
  | EmptyString => [EmptyString]
  | String c rest =>
      if Ascii.eqb c sep then EmptyString :: Split rest sep
      else match Split rest sep with
           | [] => [String c EmptyString]
           | hd :: tl => String c hd :: tl
           end
  end.

End strings.

(** Go's [error] values met in this package. *)
Inductive error : Type :=
| errorString (msg : string)
| NumError (fn num : string).

Module strconv.

(** The decimal value of a string of digits, [None] at the first byte
    that is not a digit. *)
Fixpoint digits (s : string) (n : Z) : option Z :=
  match s with
  | EmptyString => Some n
  | String ch rest =>
      let d := Z.of_nat (nat_of_ascii ch) - 48 in
      if (0 <=? d) && (d <=? 9) then digits rest (n * 10 + d) else None
  end.

(** [strconv.Atoi(s)] with a 64-bit [int]: an optional sign and decimal
    digits.  The integer returned beside a non-nil error is not used by
    the callers here and is taken to be 0. *)
Definition Atoi (s : string) : Z * option error :=
  let bad := (0, Some (NumError "Atoi" s)) in
  match s with
  | EmptyString => bad
  | String c rest =>
      let signed := Ascii.eqb c "-" || Ascii.eqb c "+" in
      let body := if signed then rest else s in
      match body with
      | EmptyString => bad
      | _ =>
          match digits body 0 with
          | None => bad
          | Some n =>
              let v := if Ascii.eqb c "-" then - n else n in
              if (v <? - 2 ^ 63) || (2 ^ 63 - 1 <? v) then bad
              else (v, None)
          end
      end
  end.

End strconv.

(** ** Package [reflect]: the values handed to the scheduler

    An [interface{}] value is either a function, of which the scheduler
    observes the runtime name and the number of parameters; or a value
    of another kind that [reflect.Value.Pointer] accepts (a pointer, map,
    slice or channel), whose address is that of data, inside no
    function; or a value of a kind it does not accept; or the nil
    interface. *)

Inductive Value : Type :=
| Func (name : string) (numIn : nat)
| Ref (repr : string)
| Data (repr : string)
| Nil.

(** A call either returns or panics. *)
Inductive outcome (A : Type) : Type :=
| Ok (a : A)
| Panic (msg : string).

Arguments Ok {A} a.
Arguments Panic {A} msg.

(** ** Package [gocron] *)

Definition UnitSeconds : string := "seconds".
Definition UnitMinutes : string := "minutes".
Definition UnitHours : string := "hours".
Definition UnitDays : string := "days".
Definition UnitWeeks : string := "weeks".

Record Job : Type := mkJob {
  interval : Z;
  jobFunc : string;
  unit : string;
  atTime : string;
  lastRun : time.Time;
  nextRun : time.Time;
  period : time.Duration;
  startDay : time.Weekday;
  funcs : gmap string Value;
  fparams : gmap string (list Value)
}.

Definition set_unit (u : string) (j : Job) : Job :=
  mkJob (interval j) (jobFunc j) u (atTime j) (lastRun j) (nextRun j)
        (period j) (startDay j) (funcs j) (fparams j).

Definition set_lastRun (t : time.Time) (j : Job) : Job :=
  mkJob (interval j) (jobFunc j) (unit j) (atTime j) t (nextRun j)
        (period j) (startDay j) (funcs j) (fparams j).

Definition set_nextRun (t : time.Time) (j : Job) : Job :=
  mkJob (interval j) (jobFunc j) (unit j) (atTime j) (lastRun j) t
        (period j) (startDay j) (funcs j) (fparams j).

Definition set_period (d : time.Duration) (j : Job) : Job :=
  mkJob (interval j) (jobFunc j) (unit j) (atTime j) (lastRun j) (nextRun j)
        d (startDay j) (funcs j) (fparams j).

Definition set_startDay (d : time.Weekday) (j : Job) : Job :=
  mkJob (interval j) (jobFunc j) (unit j) (atTime j) (lastRun j) (nextRun j)
        (period j) d (funcs j) (fparams j).

(** [j.funcs[fname] = jobFun; j.fparams[fname] = params; j.jobFunc = fname] *)
Definition set_payload (fname : string) (jobFun : Value) (params : list Value)
    (j : Job) : Job :=
  mkJob (interval j) fname (unit j) (atTime j) (lastRun j) (nextRun j)
        (period j) (startDay j)
        (<[fname := jobFun]> (funcs j)) (<[fname := params]> (fparams j)).

(** [getFunctionName] is
    [runtime.FuncForPC(reflect.ValueOf(fn).Pointer()).Name()]: at the
    address of a pointer, map, slice or channel [FuncForPC] finds no
    function, and the name of the nil [*Func] is empty; [Pointer] panics
    on a value of a kind it does not accept, and on the nil interface. *)
Definition getFunctionName (fn : Value) : outcome string :=
  match fn with
  | Func name _ => Ok name
  | Ref _ => Ok ""
  | Data _ =>
      Panic "reflect: call of reflect.Value.Pointer on a non-pointer Value"
  | Nil => Panic "reflect: call of reflect.Value.Pointer on zero Value"
  end.

Definition formatTime (t : string) : Z * Z * option error :=
  let er := errorString "time format error" in
  match strings.Split t ":" with
  | [h; m] =>
      let '(hour, err) := strconv.Atoi h in
      match err with
      | Some _ => (hour, 0, err)
      | None =>
          let '(min, err) := strconv.Atoi m in
          match err with
          | Some _ => (hour, min, err)
          | None =>
              if (hour <? 0) || (23 <? hour) || (min <? 0) || (59 <? min)
              then (hour, min, Some er)
              else (hour, min, None)
          end
      end
  | _ => (0, 0, Some er)
  end.

(** The package-level state the functions read: [time.Local], and the
    current value of the variable [loc] (which starts as [time.Local] and
    is set by [ChangeLoc]). *)
Class Env : Type := mkEnv {
  Local : time.Location;
  loc : time.Location
}.

Section Package.

Context {env : Env}.

(** The never-run sentinel [time.Unix(0, 0)]. *)
Definition epoch : time.Time := time.Unix Local 0 0.

Definition NewJob (interval : Z) : Job :=
  mkJob interval "" "" "" epoch epoch 0 time.Sunday ∅ ∅.

(** Every function below that reads the wall clock takes the reading
    [clock] (nanoseconds since the epoch) as its first argument; the
    successive [time.Now()] calls of one invocation see one reading. *)

Definition shouldRun (clock : Z) (j : Job) : bool :=
  time.Time_After (time.Now Local clock) (nextRun j).

Definition scheduleNextRun (clock : Z) (j : Job) : Job :=
  let now := time.Now Local clock in
  let j :=
    if time.Time_eqb (lastRun j) epoch then
      if String.eqb (unit j) UnitWeeks then
        let i := time.Weekday_int (time.Time_Weekday now)
                 - time.Weekday_int (startDay j) in
        let i := if i <? 0 then 7 + i else i in
        set_lastRun
          (time.Date (time.Time_Year now) (time.Time_Month now)
                     (time.Time_Day now - i) 0 0 0 0 loc) j
      else set_lastRun now j
    else j in
  if negb (period j =? 0) then
    set_nextRun
      (time.Time_Add (lastRun j) (time.Duration_mul (period j) time.Second))
      j
  else
    let j :=
      if String.eqb (unit j) UnitMinutes then
        set_period (toInt64 (uint64_mul (interval j) 60)) j
      else if String.eqb (unit j) UnitHours then
        set_period (toInt64 (uint64_mul (uint64_mul (interval j) 60) 60)) j
      else if String.eqb (unit j) UnitDays then
        set_period
          (toInt64 (uint64_mul (uint64_mul (uint64_mul (interval j) 60) 60)
                               24)) j
      else if String.eqb (unit j) UnitWeeks then
        set_period
          (toInt64
             (uint64_mul
                (uint64_mul (uint64_mul (uint64_mul (interval j) 60) 60) 24)
                7)) j
      else if String.eqb (unit j) UnitSeconds then
        set_period (toInt64 (interval j)) j
      else j in
    set_nextRun
      (time.Time_Add (lastRun j) (time.Duration_mul (period j) time.Second))
      j.

(** [run]: the goroutine started by [go f.Call(in)] is not part of the
    job's state and is left out. *)
Definition run (clock : Z) (j : Job) : outcome (Job * option error) :=
  let t := time.Now Local clock in
  match funcs j !! jobFunc j with
  | Some (Func _ numIn) =>
      let params := default [] (fparams j !! jobFunc j) in
      if negb (Nat.eqb (length params) numIn) then
        Ok (j, Some (errorString "the number of param is not adapted"))
      else Ok (scheduleNextRun clock (set_lastRun t j), None)
  | Some (Ref _) | Some (Data _) => Panic "reflect: NumIn of non-func type"
  | Some Nil | None => Panic "reflect: call of reflect.Value.Type on zero Value"
  end.

Definition Do (clock : Z) (j : Job) (jobFun : Value) (params : list Value)
  : outcome Job :=
  match jobFun with
  | Func fname _ =>
      Ok (scheduleNextRun clock (set_payload fname jobFun params j))
  | Ref _ | Data _ =>
      Panic "only function can be schedule into the job queue."
  | Nil => Panic "invalid memory address or nil pointer dereference"
  end.

Definition At (clock : Z) (j : Job) (t : string) : outcome Job :=
  let '(hour, min, err) := formatTime t in
  match err with
  | Some _ => Panic "time format error"
  | None =>
      let now := time.Now Local clock in
      let year := time.Time_Year now in
      let month := time.Time_Month now in
      let day := time.Time_Day now in
      let mock := time.Date year month day hour min 0 0 loc in
      if String.eqb (unit j) UnitDays then
        if time.Time_After now mock then Ok (set_lastRun mock j)
        else
          Ok (set_lastRun
                (time.Date year month (day - 1) hour min 0 0 loc) j)
      else if String.eqb (unit j) UnitWeeks then
        if negb (time.Weekday_eqb (startDay j) (time.Time_Weekday now))
           || (time.Time_After now mock
               && time.Weekday_eqb (startDay j) (time.Time_Weekday now))
        then
          let i := time.Weekday_int (time.Time_Weekday mock)
                   - time.Weekday_int (startDay j) in
          let i := if i <? 0 then 7 + i else i in
          Ok (set_lastRun
                (time.Date year month (day - i) hour min 0 0 loc) j)
        else
          Ok (set_lastRun
                (time.Date year month (day - 7) hour min 0 0 loc) j)
      else Ok j
  end.

Definition NextScheduledTime (j : Job) : time.Time := nextRun j.

Definition Seconds (j : Job) : Job := set_unit UnitSeconds j.
Definition Minutes (j : Job) : Job := set_unit UnitMinutes j.
Definition Hours (j : Job) : Job := set_unit UnitHours j.
Definition Days (j : Job) : Job := set_unit UnitDays j.
Definition Weeks (j : Job) : Job := set_unit UnitWeeks j.

(** The singular setters and the weekday setters [panic("")] unless the
    interval is 1. *)
Definition singular (f : Job -> Job) (j : Job) : outcome Job :=
  if negb (interval j =? 1) then Panic "" else Ok (f j).

Definition Second : Job -> outcome Job := singular Seconds.
Definition Minute : Job -> outcome Job := singular Minutes.
Definition Hour : Job -> outcome Job := singular Hours.
Definition Day : Job -> outcome Job := singular Days.

Definition onWeekday (d : time.Weekday) : Job -> outcome Job :=
  singular (fun j => Weeks (set_startDay d j)).

Definition Monday : Job -> outcome Job := onWeekday time.Monday.
Definition Tuesday : Job -> outcome Job := onWeekday time.Tuesday.
Definition Wednesday : Job -> outcome Job := onWeekday time.Wednesday.
Definition Thursday : Job -> outcome Job := onWeekday time.Thursday.
Definition Friday : Job -> outcome Job := onWeekday time.Friday.
Definition Saturday : Job -> outcome Job := onWeekday time.Saturday.
Definition Sunday : Job -> outcome Job := onWeekday time.Sunday.

Record Scheduler : Type := mkScheduler { jobs : list Job }.

(** [Scheduler] implements [sort.Interface]; an index out of range
    panics. *)
Definition Len (s : Scheduler) : nat := length (jobs s).

Definition Swap (s : Scheduler) (i j : nat) : outcome Scheduler :=
  match jobs s !! i, jobs s !! j with
  | Some a, Some b => Ok (mkScheduler (<[j := a]> (<[i := b]> (jobs s))))
  | _, _ => Panic "index out of range"
  end.

Definition Less (s : Scheduler) (i j : nat) : outcome bool :=
  match jobs s !! i, jobs s !! j with
  | Some a, Some b => Ok (time.Time_After (nextRun b) (nextRun a))
  | _, _ => Panic "index out of range"
  end.

Definition NewScheduler : Scheduler := mkScheduler [].

(** [sort.Sort(s)]: the library promises a rearrangement of the
    elements that is in ascending order as determined by [Less]; it
    does not promise which one (the sort is not stable). *)
Class Sorter : Type := mkSorter {
  sort_Sort : Scheduler -> Scheduler;
  sort_Sort_Permutation : forall s, jobs (sort_Sort s) ≡ₚ jobs s;
  sort_Sort_ascending : forall s i j,
    (i < j < Len (sort_Sort s))%nat -> Less (sort_Sort s) j i = Ok false
}.

(** The loop of [getRunnableJobs] over the sorted slice. *)
Fixpoint runnablePrefix (clock : Z) (l : list Job) : list Job :=
  match l with
  | [] => []
  | j :: rest =>
      if shouldRun clock j then j :: runnablePrefix clock rest else []
  end.

(** [getRunnableJobs] returns the runnable jobs and leaves [s.jobs]
    sorted. *)
Definition getRunnableJobs {srt : Sorter} (clock : Z) (s : Scheduler)
  : Scheduler * list Job :=
  let s := sort_Sort s in
  (s, runnablePrefix clock (jobs s)).

(** The [range] loop of [Remove]: [i] is assigned at the start of each
    iteration and keeps its value when the loop ends; [k] is the index
    of the head of [l]. *)
Fixpoint removeScan (name : string) (l : list Job) (k i : nat) : nat :=
  match l with
  | [] => i
  | job :: rest =>
      if String.eqb (jobFunc job) name then k
      else removeScan name rest (S k) k
  end.

(** [append(s.jobs[:i], s.jobs[i+1:]...)]: slicing from [i+1] panics
    when [i+1] exceeds the length. *)
Definition removeAt (s : Scheduler) (i : nat) : outcome Scheduler :=
  if (S i <=? length (jobs s))%nat then
    Ok (mkScheduler (take i (jobs s) ++ drop (S i) (jobs s)))
  else Panic "slice bounds out of range".

(** [Remove]: [getFunctionName(j)] is evaluated inside the loop, so not
    at all on an empty slice, where [i] stays 0. *)
Definition Remove (s : Scheduler) (j : Value) : outcome Scheduler :=
  match jobs s with
  | [] => removeAt s 0
  | _ :: _ =>
      match getFunctionName j with
      | Panic msg => Panic msg
      | Ok name => removeAt s (removeScan name (jobs s) 0 0)
      end
  end.

Definition Clear (s : Scheduler) : Scheduler := mkScheduler [].

End Package.

(** ** Vocabulary of the specification *)

Section Vocabulary.

Context {env : Env}.




(** Seconds in one unit. *)
Definition unitSeconds (u : string) : Z :=
  if String.eqb u UnitSeconds then 1
  else if String.eqb u UnitMinutes then 60
  else if String.eqb u UnitHours then 3600
  else if String.eqb u UnitDays then 86400
  else if String.eqb u UnitWeeks then 604800
  else 0.

(** The period of [interval] units, in seconds: the product is taken on
    [uint64] and converted to [time.Duration]. *)
Definition cachedPeriod (u : string) (interval : Z) : time.Duration :=
  toInt64 (toUint64 (interval * unitSeconds u)).

Definition fiveUnits : list string :=
  [UnitSeconds; UnitMinutes; UnitHours; UnitDays; UnitWeeks].

(** The period [scheduleNextRun] adds to [lastRun]: the cached [period]
    when it is not zero, else the one computed from the unit and the
    interval. *)
Definition periodInForce (j : Job) : time.Duration :=
  if period j =? 0 then cachedPeriod (unit j) (interval j) else period j.

(** The period in force is not negative and, in nanoseconds, fits
    [time.Duration]. *)
Definition periodFits (j : Job) : Prop :=
  0 <= periodInForce j /\ periodInForce j * 10 ^ 9 < 2 ^ 63.

(** [a] is not after [b]. *)
Definition notAfter (a b : time.Time) : Prop :=
  time.unixNano a <= time.unixNano b.

(** A job is due when its [nextRun] is strictly before the clock. *)
Definition due (clock : Z) (j : Job) : Prop :=
  time.unixNano (nextRun j) < clock.

(** Ascending order of [nextRun]. *)
Definition jobLe (a b : Job) : Prop := notAfter (nextRun a) (nextRun b).

(** A job is armed once [Do] has bound a function and its arguments. *)
Definition armed (j : Job) : Prop :=
  exists name numIn params,
    funcs j !! jobFunc j = Some (Func name numIn)
    /\ fparams j !! jobFunc j = Some params.

(** One fire-and-reschedule step, whether it reports an error or not,
    and any number of them. *)
Inductive fire : Job -> Job -> Prop :=
| fire_run (clock : Z) (j j' : Job) (err : option error) :
    run clock j = Ok (j', err) -> fire j j'.

Definition fires : Job -> Job -> Prop := rtc fire.

End Vocabulary.

Global Instance due_dec (clock : Z) (j : Job) : Decision (due clock j) :=
  Z_lt_dec (time.unixNano (nextRun j)) clock.

Global Instance jobLe_dec (a b : Job) : Decision (jobLe a b) :=
  Z_le_dec (time.unixNano (nextRun a)) (time.unixNano (nextRun b)).

(** A sort to run the scheduler with. *)
Definition mergeSort (s : Scheduler) : Scheduler :=
  mkScheduler (merge_sort jobLe (jobs s)).

(** Sample data: UTC everywhere, Friday 2026-10-30 (day 20756) at 09:00
    and at 12:00, and a function of no parameters. *)
Definition utc : Env := mkEnv (time.FixedZone 0) (time.FixedZone 0).

Definition friday0900 : Z := (20756 * 86400 + 9 * 3600) * 10 ^ 9.
Definition friday1200 : Z := (20756 * 86400 + 12 * 3600) * 10 ^ 9.

Definition task : Value := Func "main.task" 0.

(** A job every day, and one every Monday, not yet anchored or armed. *)
Definition daily : Job := Days (NewJob (env := utc) 1).

(** Jobs whose next runs are one, two and three hours after Friday 09:00,
    held in another order. *)
Definition jobDueAt (hours : Z) : Job :=
  set_nextRun
    (time.mkTime (friday0900 + hours * 3600 * 10 ^ 9) false
                 (time.FixedZone 0))
    daily.
Definition threeJobs : Scheduler :=
  mkScheduler [jobDueAt 3; jobDueAt 1; jobDueAt 2].

(** Two armed jobs under different function names, and a function that
    was never scheduled. *)
Definition jobNamed (name : string) : Job :=
  scheduleNextRun (env := utc) friday0900
    (set_payload name (Func name 0) [] daily).
Definition twoJobs : Scheduler :=
  mkScheduler [jobNamed "main.backup"; jobNamed "main.report"].
Definition stranger : Value := Func "main.cleanup" 0.

(** A pointer to a variable, as in [Remove(&counter)]. *)
Definition counter : Value := Ref "&counter".


(** A job every 9223372037 seconds, and one every 2^62 minutes. *)
Definition centuries : Job := Seconds (NewJob (env := utc) 9223372037).
Definition aeons : Job := Minutes (NewJob (env := utc) (2 ^ 62)).

(** [daily] armed with [task] and no arguments, and with one argument
    too many. *)
Definition dailyArmed : Job :=
  scheduleNextRun (env := utc) friday0900
    (set_payload "main.task" task [] daily).
Definition dailyMisbound : Job :=
  scheduleNextRun (env := utc) friday0900
    (set_payload "main.task" task [Data "1"] daily).

(** ** The rest of the scheduler's surface *)

Section Dispatch.

Context {env : Env} {srt : Sorter}.

(** [job.run()] on each job of a slice in turn, as the loops of
    [RunPending] and [RunAll] do: the result and the error of each run
    are dropped, a panic ends the loop and the call. *)
Fixpoint runEach (clock : Z) (l : list Job) : outcome (list Job) :=
  match l with
  | [] => Ok []
  | j :: rest =>
      match run clock j with
      | Panic msg => Panic msg
      | Ok (j', _) =>
          match runEach clock rest with
          | Panic msg => Panic msg
          | Ok rest' => Ok (j' :: rest')
          end
      end
  end.

(** [RunPending]: [runnableJobs] holds the pointers at the head of the
    sorted [s.jobs], so running them rewrites the jobs at that head. *)
Definition RunPending (clock : Z) (s : Scheduler) : outcome Scheduler :=
  let '(s, runnableJobs) := getRunnableJobs clock s in
  match runEach clock runnableJobs with
  | Panic msg => Panic msg
  | Ok ran => Ok (mkScheduler (ran ++ drop (length runnableJobs) (jobs s)))
  end.

Definition RunAll (clock : Z) (s : Scheduler) : outcome Scheduler :=
  match runEach clock (jobs s) with
  | Panic msg => Panic msg
  | Ok ran => Ok (mkScheduler ran)
  end.

(** [NextRun]: [None] stands for the nil job. *)
Definition NextRun (clock : Z) (s : Scheduler)
  : outcome (Scheduler * option Job * time.Time) :=
  if (length (jobs s) <=? 0)%nat then Ok (s, None, time.Now Local clock)
  else
    let s := sort_Sort s in
    match jobs s with
    | j :: _ => Ok (s, Some j, nextRun j)
    | [] => Panic "index out of range"
    end.

(** [Every]: the job handed back is the one appended. *)
Definition Every (s : Scheduler) (interval : Z) : Scheduler * Job :=
  let job := NewJob interval in
  (mkScheduler (jobs s ++ [job]), job).

End Dispatch.

(** "HH:MM" with two digits each, for [hour] and [min] below 100. *)
Definition twoDigits (n : Z) : string :=
  String (ascii_of_nat (48 + Z.to_nat (n / 10)))
    (String (ascii_of_nat (48 + Z.to_nat (n mod 10))) EmptyString).

Definition clockString (hour min : Z) : string :=
  (twoDigits hour ++ ":" ++ twoDigits min)%string.

(** ** More vocabulary *)

(** The payload of a job is not a function: [Do] was not called. *)
Definition unarmed (j : Job) : Prop :=
  forall name numIn, funcs j !! jobFunc j <> Some (Func name numIn).

(** The kinds [reflect.Value.Pointer] accepts. *)
Definition pointerLike (v : Value) : Prop :=
  match v with
  | Func _ _ | Ref _ => True
  | Data _ | Nil => False
  end.

(** A job is well bound when it is armed with as many arguments as its
    function has parameters. *)
Definition wellBound (j : Job) : Prop :=
  exists name params,
    funcs j !! jobFunc j = Some (Func name (length params))
    /\ fparams j !! jobFunc j = Some params.

(** One fire at a given reading of the clock. *)
Definition firedAt `{Env} (clock : Z) (j j' : Job) : Prop :=
  exists err, run clock j = Ok (j', err).

(** Every clock time of the day, written "HH:MM", checked one by one. *)
Definition parsesBack (h mi : nat) : bool :=
  match formatTime (clockString (Z.of_nat h) (Z.of_nat mi)) with
  | (h', mi', None) => (h' =? Z.of_nat h) && (mi' =? Z.of_nat mi)
  | _ => false
  end.

(** * Properties *)

(** Linear arithmetic with division and remainder by constants. *)
Ltac zdiv := Z.div_mod_to_equations; lia.

(** ** The calendar *)



Lemma civil_day_range (z : Z) : 1 <= (time.civilFromDays z).2 <= 31.
Proof.
  unfold time.civilFromDays; cbn [fst snd].
  set (z' := z + 719468).
  set (era := z' / 146097).
  set (doe := z' - era * 146097).
  assert (Hdoe : 0 <= doe < 146097) by (subst doe era; zdiv).
  set (yoe := (doe - doe / 1460 + doe / 36524 - doe / 146096) / 365).
  set (doy := doe - (365 * yoe + yoe / 4 - yoe / 100)).
  assert (Hdoy : 0 <= doy <= 365) by (subst doy yoe; zdiv).
  clearbody doy. zdiv.
Qed.



Example civil_epoch : time.civilFromDays 0 = (1970, 1, 1).
Proof. reflexivity. Qed.

Example civil_20756 : time.civilFromDays 20756 = (2026, 10, 30).
Proof. reflexivity. Qed.

Example civil_leap_day : time.civilFromDays 19782 = (2024, 2, 29).
Proof. reflexivity. Qed.

Example civil_2000_leap : time.civilFromDays 11016 = (2000, 2, 29).
Proof. reflexivity. Qed.

Example civil_1900_not_leap :
  time.civilFromDays (-25509) = (1900, 2, 28)
  /\ time.civilFromDays (-25508) = (1900, 3, 1).
Proof. split; reflexivity. Qed.

Example Date_october_32 :
  time.Date 2026 10 32 0 0 0 0 (time.FixedZone 0)
  = time.Date 2026 11 1 0 0 0 0 (time.FixedZone 0).
Proof. reflexivity. Qed.

Example Date_month_13 :
  time.Date 2026 13 1 0 0 0 0 (time.FixedZone 0)
  = time.Date 2027 1 1 0 0 0 0 (time.FixedZone 0).
Proof. reflexivity. Qed.

Example Weekday_20756 :
  time.Time_Weekday (time.Date 2026 10 30 12 0 0 0 (time.FixedZone 3600))
  = time.Friday.
Proof. reflexivity. Qed.

(** ** Fixed-width arithmetic *)

Lemma toUint64_mul_l (a b : Z) : toUint64 (toUint64 a * b) = toUint64 (a * b).
Proof. unfold toUint64. apply Z.mul_mod_idemp_l. lia. Qed.

Lemma toInt64_toUint64 (a : Z) : toInt64 (toUint64 a) = toInt64 a.
Proof.
  unfold toInt64, toUint64. f_equal.
  rewrite Z.add_mod_idemp_l by lia. reflexivity.
Qed.

Lemma toInt64_small (a : Z) : inInt64 a -> toInt64 a = a.
Proof. unfold inInt64, toInt64. intros Ha. zdiv. Qed.

Lemma toInt64_range (a : Z) : inInt64 (toInt64 a).
Proof. unfold inInt64, toInt64. zdiv. Qed.

(** ** [scheduleNextRun], field by field *)

Ltac string_cases :=
  repeat match goal with
    | |- context [String.eqb ?a ?b] => destruct (String.eqb_spec a b)
    end.

Ltac unit_clash :=
  unfold UnitSeconds, UnitMinutes, UnitHours, UnitDays, UnitWeeks in *;
  congruence.

Ltac time_cases :=
  repeat match goal with
    | |- context [time.Time_eqb ?a ?b] => destruct (time.Time_eqb a b)
    | |- context [negb (?a =? ?b)] => destruct (Z.eqb_spec a b)
    end.

Ltac job_fields :=
  cbn [interval jobFunc unit atTime lastRun nextRun period startDay funcs
       fparams set_lastRun set_nextRun set_period].

Lemma scheduleNextRun_frame `{Env} (clock : Z) (j : Job) :
  let j' := scheduleNextRun clock j in
  interval j' = interval j /\ jobFunc j' = jobFunc j /\ unit j' = unit j
  /\ atTime j' = atTime j /\ startDay j' = startDay j
  /\ funcs j' = funcs j /\ fparams j' = fparams j.
Proof.
  unfold scheduleNextRun. time_cases; job_fields; time_cases; job_fields;
    string_cases; job_fields; repeat split; try reflexivity; try congruence.
Qed.

Lemma scheduleNextRun_lastRun `{Env} (clock : Z) (j : Job) :
  lastRun (scheduleNextRun clock j)
  = if time.Time_eqb (lastRun j) epoch then
      if String.eqb (unit j) UnitWeeks then
        let now := time.Now Local clock in
        let i := time.Weekday_int (time.Time_Weekday now)
                 - time.Weekday_int (startDay j) in
        let i := if i <? 0 then 7 + i else i in
        time.Date (time.Time_Year now) (time.Time_Month now)
                  (time.Time_Day now - i) 0 0 0 0 loc
      else time.Now Local clock
    else lastRun j.
Proof.
  unfold scheduleNextRun.
  destruct (time.Time_eqb (lastRun j) epoch);
    [destruct (String.eqb (unit j) UnitWeeks)|];
    cbn; time_cases; cbn; string_cases; reflexivity.
Qed.

Lemma scheduleNextRun_period `{Env} (clock : Z) (j : Job) :
  period (scheduleNextRun clock j)
  = if period j =? 0 then cachedPeriod (unit j) (interval j) else period j.
Proof.
  unfold scheduleNextRun, cachedPeriod, unitSeconds, uint64_mul.
  rewrite !toUint64_mul_l, !toInt64_toUint64.
  destruct (time.Time_eqb (lastRun j) epoch);
    [destruct (String.eqb_spec (unit j) UnitWeeks) as [Ew|Ew]|];
    cbn; destruct (Z.eqb_spec (period j) 0) as [Hp|Hp]; cbn;
    try reflexivity;
    string_cases; cbn; try congruence; try discriminate;
    rewrite ?Z.mul_1_r, <- ?Z.mul_assoc; try reflexivity;
    try (exfalso; unit_clash);
    rewrite Z.mul_0_r, Hp; reflexivity.
Qed.

Lemma scheduleNextRun_nextRun `{Env} (clock : Z) (j : Job) :
  let j' := scheduleNextRun clock j in
  nextRun j'
  = time.Time_Add (lastRun j') (time.Duration_mul (period j') time.Second).
Proof.
  unfold scheduleNextRun. time_cases; job_fields; time_cases; job_fields;
    string_cases; reflexivity.
Qed.

(** ** Anchoring a daily job with [At] *)



Example formatTime_accepts :
  formatTime "00:00" = (0, 0, None) /\ formatTime "23:59" = (23, 59, None)
  /\ formatTime "7:5" = (7, 5, None).
Proof. repeat split. Qed.

Example formatTime_rejects :
  (formatTime "25:00").2 = Some (errorString "time format error")
  /\ (formatTime "10-30").2 = Some (errorString "time format error")
  /\ (formatTime "abc").2 = Some (errorString "time format error")
  /\ (formatTime "10:3o").2 = Some (NumError "Atoi" "3o")
  /\ (formatTime "10:30:00").2 = Some (errorString "time format error").
Proof. repeat split. Qed.





(** ** The first [nextRun] of an anchored daily job *)



Lemma Do_Func `{Env} (clock : Z) (j : Job) (name : string) (numIn : nat)
    (params : list Value) :
  Do clock j (Func name numIn) params
  = Ok (scheduleNextRun clock (set_payload name (Func name numIn) params j)).
Proof. reflexivity. Qed.




(** ** Back-dating a job that never ran *)





Lemma Time_eqb_refl (t : time.Time) : time.Time_eqb t t = true.
Proof.
  unfold time.Time_eqb. rewrite !Z.eqb_refl.
  destruct (time.hasMonotonic t); reflexivity.
Qed.





(** ** Fire-and-reschedule *)

Lemma run_armed `{Env} (clock : Z) (j : Job) (name : string) (numIn : nat)
    (params : list Value) :
  funcs j !! jobFunc j = Some (Func name numIn) ->
  fparams j !! jobFunc j = Some params ->
  run clock j
  = if negb (Nat.eqb (length params) numIn) then
      Ok (j, Some (errorString "the number of param is not adapted"))
    else
      Ok (scheduleNextRun clock (set_lastRun (time.Now Local clock) j), None).
Proof. intros Hf Hp. unfold run. rewrite Hf, Hp. reflexivity. Qed.

(** A result of [run] is either the job untouched with an error, or the
    job rescheduled from the firing instant. *)
Lemma run_inv `{Env} (clock : Z) (j j' : Job) (err : option error) :
  run clock j = Ok (j', err) ->
  (j' = j /\ is_Some err)
  \/ (j' = scheduleNextRun clock (set_lastRun (time.Now Local clock) j)
      /\ err = None).
Proof.
  unfold run. destruct (funcs j !! jobFunc j) as [[name numIn| | |]|];
    try discriminate.
  destruct (negb _); intros [= <- <-]; [left|right]; eauto.
Qed.

Lemma Do_armed `{Env} (clock : Z) (j j' : Job) (jobFun : Value)
    (params : list Value) :
  Do clock j jobFun params = Ok j' -> armed j'.
Proof.
  destruct jobFun as [name numIn| | |]; try discriminate.
  rewrite Do_Func. intros [= <-].
  destruct (scheduleNextRun_frame clock
              (set_payload name (Func name numIn) params j))
    as (_ & Hj & _ & _ & _ & Hf & Hp).
  exists name, numIn, params. rewrite Hj, Hf, Hp. cbn.
  rewrite !lookup_insert_eq. split; reflexivity.
Qed.

(** C9: for every armed job, [run] returns (it does not panic), it
    returns an error exactly when the number of bound arguments differs
    from the function's number of parameters, and with that error the job
    is returned unchanged: no field is written and nothing is
    rescheduled. *)
Theorem run_error_iff_arity `{Env} (clock : Z) (j : Job) (name : string)
    (numIn : nat) (params : list Value) :
  funcs j !! jobFunc j = Some (Func name numIn) ->
  fparams j !! jobFunc j = Some params ->
  exists j' err,
    run clock j = Ok (j', err)
    /\ (is_Some err <-> length params <> numIn)
    /\ (is_Some err -> j' = j).
Proof.
  intros Hf Hp. rewrite (run_armed clock j name numIn params Hf Hp).
  destruct (Nat.eqb_spec (length params) numIn) as [He|He]; cbn.
  - do 2 eexists. split; [reflexivity|]. split.
    + split; [intros [e [=]] | intros Hne; contradiction].
    + intros [e [=]].
  - do 2 eexists. split; [reflexivity|]. split.
    + split; [intros _; exact He | intros _; eauto].
    + reflexivity.
Qed.

Lemma run_error_iff_arity_witness :
  exists j' err,
    run (env := utc) friday1200 dailyMisbound = Ok (j', err)
    /\ is_Some err /\ j' = dailyMisbound.
Proof.
  destruct (run_error_iff_arity (H := utc) friday1200 dailyMisbound
              "main.task" 0 [Data "1"] eq_refl eq_refl)
    as (j' & err & Hrun & Hiff & Hsame).
  exists j', err. split; [exact Hrun|].
  assert (He : is_Some err) by (apply Hiff; cbn; lia).
  split; [exact He | exact (Hsame He)].
Defined.

(** The reading of [time.Now()] carries a monotonic clock reading, the
    sentinel does not: they are never [==]. *)
Lemma Now_not_epoch `{Env} (clock : Z) :
  time.Time_eqb (time.Now Local clock) epoch = false.
Proof.
  unfold time.Time_eqb, time.Now, epoch, time.Unix. cbn.
  apply andb_false_intro1, andb_false_r.
Qed.

(** C5, as the code has it: after a successful [run], [lastRun] is the
    firing instant and [nextRun] is [lastRun.Add(period * time.Second)],
    the product taken on [int64] nanoseconds; that is [lastRun] plus
    [period] seconds whenever [period] * 10^9 fits in [int64]. *)
Theorem run_nextRun `{Env} (clock : Z) (j j' : Job) :
  run clock j = Ok (j', None) ->
  lastRun j' = time.Now Local clock
  /\ nextRun j'
     = time.Time_Add (lastRun j') (time.Duration_mul (period j') time.Second)
  /\ (inInt64 (period j' * 10 ^ 9) ->
      time.unixNano (nextRun j')
      = time.unixNano (lastRun j') + period j' * 10 ^ 9).
Proof.
  intros Hrun.
  destruct (run_inv clock j j' None Hrun) as [[_ [e [=]]]|[-> _]].
  assert (Hl : lastRun (scheduleNextRun clock
                          (set_lastRun (time.Now Local clock) j))
               = time.Now Local clock).
  { rewrite scheduleNextRun_lastRun. cbn [lastRun set_lastRun].
    rewrite Now_not_epoch. reflexivity. }
  split; [exact Hl|].
  split; [apply scheduleNextRun_nextRun|].
  intros Hfit. rewrite scheduleNextRun_nextRun. cbn.
  unfold time.Duration_mul, time.Second.
  change (10 ^ 9) with 1000000000 in Hfit.
  rewrite (toInt64_small _ Hfit). reflexivity.
Qed.

Lemma run_nextRun_witness :
  exists j',
    run (env := utc) friday1200 dailyArmed = Ok (j', None)
    /\ lastRun j' = time.Now (time.FixedZone 0) friday1200
    /\ time.unixNano (nextRun j') = friday1200 + 86400 * 10 ^ 9.
Proof.
  pose (j' := scheduleNextRun (env := utc) friday1200
                (set_lastRun (time.Now (time.FixedZone 0) friday1200)
                             dailyArmed)).
  assert (Hrun : run (env := utc) friday1200 dailyArmed = Ok (j', None))
    by reflexivity.
  destruct (run_nextRun (H := utc) friday1200 dailyArmed j' Hrun)
    as (Hl & _ & Hn).
  exists j'. split; [exact Hrun|]. split; [exact Hl|].
  rewrite Hn; [vm_compute; reflexivity|].
  vm_compute. split; [discriminate | reflexivity].
Defined.

(** C5 as stated fails: for a job every 9223372037 seconds, [period] *
    10^9 nanoseconds exceeds [int64], the product wraps to a negative
    duration and, after a successful [run], [nextRun] is not [lastRun]
    plus the period: it lies before [lastRun]. *)
Lemma run_nextRun_counterexample :
  exists j0 j1,
    Do (env := utc) friday0900 centuries task [] = Ok j0
    /\ run (env := utc) friday1200 j0 = Ok (j1, None)
    /\ lastRun j1 = time.Now (time.FixedZone 0) friday1200
    /\ period j1 = 9223372037
    /\ time.unixNano (nextRun j1)
       <> time.unixNano (lastRun j1) + period j1 * 10 ^ 9
    /\ time.unixNano (nextRun j1) < time.unixNano (lastRun j1).
Proof.
  do 2 eexists. split; [vm_compute; reflexivity|].
  split; [vm_compute; reflexivity|].
  split; [vm_compute; reflexivity|].
  split; [vm_compute; reflexivity|].
  split; [vm_compute; discriminate | vm_compute; reflexivity].
Qed.

(** ** The cached period *)

Lemma unitSeconds_table :
  unitSeconds UnitSeconds = 1 /\ unitSeconds UnitMinutes = 60
  /\ unitSeconds UnitHours = 3600 /\ unitSeconds UnitDays = 86400
  /\ unitSeconds UnitWeeks = 604800.
Proof. repeat split. Qed.

Lemma cachedPeriod_exact (u : string) (i : Z) :
  0 <= i -> i * unitSeconds u < 2 ^ 63 ->
  cachedPeriod u i = i * unitSeconds u.
Proof.
  intros Hi Hfit. unfold cachedPeriod. rewrite toInt64_toUint64.
  apply toInt64_small. unfold inInt64.
  assert (0 <= unitSeconds u) by (unfold unitSeconds; string_cases; lia).
  nia.
Qed.

(** A fire keeps the unit and the interval, and keeps a period that is
    the cached one. *)
Lemma fire_period `{Env} (j j' : Job) :
  fire j j' ->
  period j = cachedPeriod (unit j) (interval j) ->
  unit j' = unit j /\ interval j' = interval j /\ period j' = period j.
Proof.
  intros [clock j0 j0' err Hrun] Hp.
  destruct (run_inv clock j0 j0' err Hrun) as [[-> _]|[-> _]];
    [repeat split|].
  destruct (scheduleNextRun_frame clock
              (set_lastRun (time.Now Local clock) j0))
    as (Hi & _ & Hu & _).
  rewrite scheduleNextRun_period. cbn in *.
  repeat split; try assumption.
  destruct (period j0 =? 0) eqn:E; [symmetry; exact Hp | reflexivity].
Qed.

Lemma fires_period `{Env} (j j' : Job) :
  fires j j' ->
  period j = cachedPeriod (unit j) (interval j) ->
  period j' = period j.
Proof.
  intros Hsteps. induction Hsteps as [j|j j1 j2 Hstep _ IH]; intros Hp.
  - reflexivity.
  - destruct (fire_period j j1 Hstep Hp) as (Hu & Hi & Hp1).
    rewrite IH by (rewrite Hu, Hi, Hp1; exact Hp). exact Hp1.
Qed.

(** C4, as the code has it: when the period of a job is first computed
    (by [Do], from a period still 0), it is the interval times the
    seconds in the unit (1, 60, 3600, 86400, 604800), the product taken
    on [uint64] and converted to [int64]; that is the exact product
    whenever it is below 2^63.  Whatever its value, no number of later
    fire-and-reschedule steps changes it. *)
Theorem period_cached_once `{Env} (clock : Z) (j j1 : Job) (jobFun : Value)
    (params : list Value) :
  In (unit j) fiveUnits ->
  period j = 0 ->
  Do clock j jobFun params = Ok j1 ->
  period j1 = toInt64 (toUint64 (interval j * unitSeconds (unit j)))
  /\ (0 <= interval j -> interval j * unitSeconds (unit j) < 2 ^ 63 ->
      period j1 = interval j * unitSeconds (unit j))
  /\ forall j2, fires j1 j2 -> period j2 = period j1.
Proof.
  intros _ Hp HDo.
  destruct jobFun as [name numIn| | |]; try discriminate.
  rewrite Do_Func in HDo. injection HDo as <-.
  set (j0 := set_payload name (Func name numIn) params j).
  assert (Hc : period (scheduleNextRun clock j0)
               = cachedPeriod (unit j) (interval j)).
  { rewrite scheduleNextRun_period. subst j0. cbn. rewrite Hp. reflexivity. }
  split; [exact Hc|]. split.
  - intros Hi Hfit. rewrite Hc. apply cachedPeriod_exact; assumption.
  - intros j2 Hsteps. apply fires_period; [exact Hsteps|].
    destruct (scheduleNextRun_frame clock j0) as (Hi & _ & Hu & _).
    rewrite Hu, Hi. exact Hc.
Qed.

Lemma period_cached_once_witness :
  exists j1 j2,
    Do (env := utc) friday0900 daily task [] = Ok j1
    /\ run (env := utc) friday1200 j1 = Ok (j2, None)
    /\ period j1 = 86400 /\ period j2 = 86400.
Proof.
  pose (j2 := scheduleNextRun (env := utc) friday1200
                (set_lastRun (time.Now (time.FixedZone 0) friday1200)
                             dailyArmed)).
  assert (Hrun : run (env := utc) friday1200 dailyArmed = Ok (j2, None))
    by reflexivity.
  destruct (period_cached_once (H := utc) friday0900 daily dailyArmed task []
              ltac:(vm_compute; tauto) eq_refl eq_refl)
    as (_ & Hexact & Hkeep).
  assert (H1 : period dailyArmed = 86400).
  { rewrite Hexact; [reflexivity | vm_compute; discriminate
                    | vm_compute; reflexivity]. }
  exists dailyArmed, j2. split; [reflexivity|]. split; [exact Hrun|].
  split; [exact H1|].
  rewrite <- H1. apply Hkeep.
  apply rtc_once, (fire_run (env := utc) friday1200 _ _ None), Hrun.
Defined.

(** C4 as stated fails: for a job every 2^62 minutes the product
    2^62 * 60 wraps on [uint64], and the period computed is 0. *)
Lemma period_cached_counterexample :
  exists j1,
    Do (env := utc) friday0900 aeons task [] = Ok j1
    /\ unit aeons = UnitMinutes
    /\ period j1 = 0
    /\ period j1 <> interval aeons * 60.
Proof.
  eexists. split; [vm_compute; reflexivity|].
  split; [reflexivity|]. split; [vm_compute; reflexivity|].
  vm_compute. discriminate.
Qed.

(** ** [nextRun] against [lastRun] *)

Lemma unitSeconds_nonneg (u : string) : 0 <= unitSeconds u.
Proof. unfold unitSeconds; string_cases; lia. Qed.

Lemma scheduleNextRun_notAfter `{Env} (clock : Z) (j : Job) :
  periodFits j ->
  notAfter (lastRun (scheduleNextRun clock j))
           (nextRun (scheduleNextRun clock j)).
Proof.
  intros (Hp & Hfit).
  unfold notAfter. rewrite scheduleNextRun_nextRun, scheduleNextRun_period.
  fold (periodInForce j).
  cbn [time.unixNano time.Time_Add].
  unfold time.Duration_mul, time.Second.
  change (10 ^ 9) with 1000000000 in Hfit.
  rewrite toInt64_small by (unfold inInt64; lia). lia.
Qed.

(** C8, as the code has it: after [scheduleNextRun], after [Do] and
    after a successful [run], [nextRun] is not before [lastRun], for a
    job whose period in force (the cached [period] when it is not zero,
    else the one computed on [uint64] from the unit and the interval) is
    not negative and, times 10^9, is below 2^63; a [run] that reports an
    error changes neither, so the relation is kept.  [At] is left out: it
    writes [lastRun] only. *)
Theorem nextRun_not_before_lastRun `{Env} (clock : Z) (j : Job) :
  periodFits j ->
  notAfter (lastRun (scheduleNextRun clock j))
           (nextRun (scheduleNextRun clock j))
  /\ (forall jobFun params j',
        Do clock j jobFun params = Ok j' ->
        notAfter (lastRun j') (nextRun j'))
  /\ (forall j' err,
        run clock j = Ok (j', err) ->
        (err = None -> notAfter (lastRun j') (nextRun j'))
        /\ (is_Some err -> lastRun j' = lastRun j /\ nextRun j' = nextRun j)).
Proof.
  intros Hs. split; [apply scheduleNextRun_notAfter, Hs|]. split.
  - intros jobFun params j' HDo.
    destruct jobFun as [name numIn| | |]; try discriminate.
    rewrite Do_Func in HDo. injection HDo as <-.
    apply scheduleNextRun_notAfter. exact Hs.
  - intros j' err Hrun.
    destruct (run_inv clock j j' err Hrun) as [[-> He]|[-> ->]]; split.
    + intros ->. destruct He as [e [=]].
    + intros _. split; reflexivity.
    + intros _. apply scheduleNextRun_notAfter. exact Hs.
    + intros [e [=]].
Qed.

Lemma nextRun_not_before_lastRun_witness :
  notAfter (lastRun dailyArmed) (nextRun dailyArmed).
Proof.
  destruct (nextRun_not_before_lastRun (H := utc) friday0900 daily)
    as (_ & HDo & _).
  { unfold periodFits. vm_compute. split; [discriminate | reflexivity]. }
  apply (HDo task []). reflexivity.
Defined.

(** C8 as stated fails after [At]: a fresh daily job anchored at 10:30
    has its [lastRun] moved to 2026 while its [nextRun] is still the
    epoch. *)
Lemma At_leaves_nextRun_behind_counterexample :
  exists j1,
    At (env := utc) friday0900 daily "10:30" = Ok j1
    /\ ~ notAfter (lastRun j1) (nextRun j1).
Proof.
  eexists. split; [vm_compute; reflexivity|].
  unfold notAfter. vm_compute. intros Hle. apply Hle. reflexivity.
Qed.

(** ** The runnable jobs *)

Lemma shouldRun_due `{Env} (clock : Z) (j : Job) :
  shouldRun clock j = true <-> due clock j.
Proof. unfold shouldRun, due, time.Time_After. cbn. apply Z.ltb_lt. Qed.

Global Instance jobLe_trans : Transitive jobLe.
Proof. unfold jobLe, notAfter. intros a b c. lia. Qed.

Global Instance jobLe_total : Total jobLe.
Proof. unfold jobLe, notAfter. intros a b. lia. Qed.

Lemma ascending_StronglySorted (l : list Job) :
  (forall i j a b,
     (i < j)%nat -> l !! i = Some a -> l !! j = Some b -> jobLe a b) ->
  StronglySorted jobLe l.
Proof.
  induction l as [|x l IH]; intros Hasc; [constructor|].
  apply StronglySorted_cons. split.
  - apply Forall_lookup. intros i b Hb.
    apply (Hasc 0%nat (S i) x b); [lia | reflexivity | exact Hb].
  - apply IH. intros i j a b Hij Ha Hb.
    apply (Hasc (S i) (S j) a b); [lia | exact Ha | exact Hb].
Qed.

Lemma sort_Sort_StronglySorted `{Sorter} (s : Scheduler) :
  StronglySorted jobLe (jobs (sort_Sort s)).
Proof.
  apply ascending_StronglySorted. intros i j a b Hij Ha Hb.
  assert (Hlen : (i < j < Len (sort_Sort s))%nat).
  { split; [exact Hij|]. unfold Len. eapply lookup_lt_Some, Hb. }
  pose proof (sort_Sort_ascending s i j Hlen) as Hless.
  unfold Less in Hless. rewrite Ha, Hb in Hless.
  injection Hless as Hless. unfold time.Time_After in Hless.
  apply Z.ltb_ge in Hless. exact Hless.
Qed.

(** On a list in ascending order the loop collects all the due jobs and
    stops in front of the others. *)
Lemma runnablePrefix_sorted `{Env} (clock : Z) (l : list Job) :
  StronglySorted jobLe l ->
  runnablePrefix clock l = filter (due clock) l
  /\ exists rest,
       l = runnablePrefix clock l ++ rest
       /\ Forall (fun j => ~ due clock j) rest.
Proof.
  induction l as [|x l IH]; intros Hs.
  - split; [reflexivity|]. exists []. split; [reflexivity | constructor].
  - apply StronglySorted_cons in Hs as [Hx Hs].
    destruct (IH Hs) as (Hf & rest & Hl & Hrest).
    cbn [runnablePrefix].
    destruct (shouldRun clock x) eqn:E.
    + apply shouldRun_due in E. rewrite filter_cons_True by exact E.
      split; [f_equal; exact Hf|].
      exists rest. split; [cbn; f_equal; exact Hl | exact Hrest].
    + assert (Hnx : ~ due clock x).
      { intros Hd. apply shouldRun_due in Hd. congruence. }
      assert (Hall : Forall (fun j => ~ due clock j) (x :: l)).
      { constructor; [exact Hnx|].
        eapply Forall_impl; [exact Hx|]. cbn.
        unfold jobLe, notAfter, due in *. intros b Hb. lia. }
      split.
      * symmetry. apply Forall_inv_tail in Hall as Htail.
        rewrite filter_cons_False by exact Hnx.
        clear -Htail. induction Htail as [|y l Hy _ IHl]; [reflexivity|].
        rewrite filter_cons_False by exact Hy. exact IHl.
      * exists (x :: l). split; [reflexivity | exact Hall].
Qed.

(** C6: whatever rearrangement [sort.Sort] settles on, [getRunnableJobs]
    returns exactly the jobs whose [nextRun] is strictly before the
    clock (each as often as the scheduler holds it), in ascending order
    of [nextRun]; they are a prefix of the sorted job list, which the
    scheduler now holds, and every job after that prefix is not due: the
    scan stopped at the first of them. *)
Theorem getRunnableJobs_due_prefix `{Env} `{Sorter} (clock : Z)
    (s s' : Scheduler) (runnable : list Job) :
  getRunnableJobs clock s = (s', runnable) ->
  runnable ≡ₚ filter (due clock) (jobs s)
  /\ (forall j, j ∈ runnable <-> j ∈ jobs s /\ due clock j)
  /\ StronglySorted jobLe runnable
  /\ jobs s' ≡ₚ jobs s
  /\ StronglySorted jobLe (jobs s')
  /\ exists rest,
       jobs s' = runnable ++ rest
       /\ Forall (fun j => ~ due clock j) rest
       /\ runnable = runnablePrefix clock (jobs s').
Proof.
  unfold getRunnableJobs. intros [= <- <-].
  pose proof (sort_Sort_StronglySorted s) as Hsorted.
  pose proof (sort_Sort_Permutation s) as Hperm.
  destruct (runnablePrefix_sorted clock _ Hsorted)
    as (Hfilter & rest & Hsplit & Hrest).
  assert (Hexact : runnablePrefix clock (jobs (sort_Sort s))
                   ≡ₚ filter (due clock) (jobs s)).
  { rewrite Hfilter. apply filter_Permutation, Hperm. }
  split; [exact Hexact|]. split.
  { intros j. rewrite Hexact, list_elem_of_filter. tauto. }
  split.
  { rewrite Hsplit in Hsorted.
    apply StronglySorted_app in Hsorted. tauto. }
  split; [exact Hperm|]. split; [exact Hsorted|].
  exists rest. auto.
Qed.

Lemma mergeSort_Permutation (s : Scheduler) : jobs (mergeSort s) ≡ₚ jobs s.
Proof. apply merge_sort_Permutation. Qed.

Lemma mergeSort_ascending (s : Scheduler) (i j : nat) :
  (i < j < Len (mergeSort s))%nat -> Less (mergeSort s) j i = Ok false.
Proof.
  intros [Hij Hj]. unfold Less, Len in *.
  destruct (lookup_lt_is_Some_2 (jobs (mergeSort s)) j Hj) as [b Hb].
  destruct (lookup_lt_is_Some_2 (jobs (mergeSort s)) i) as [a Ha]; [lia|].
  rewrite Ha, Hb. f_equal. apply Z.ltb_ge.
  pose proof (StronglySorted_merge_sort jobLe (jobs s)) as Hs.
  change (merge_sort jobLe (jobs s)) with (jobs (mergeSort s)) in Hs.
  apply (take_drop_middle _ _ _) in Ha as Hmid. symmetry in Hmid.
  rewrite Hmid in Hs. apply StronglySorted_app in Hs as (_ & _ & Hs).
  apply StronglySorted_cons in Hs as [Hall _].
  rewrite Forall_lookup in Hall. apply (Hall (j - S i)%nat).
  rewrite lookup_drop. replace (S i + (j - S i))%nat with j by lia.
  exact Hb.
Qed.

(** [mergeSort] is a [sort.Sort]. *)
Definition mergeSorter : Sorter :=
  mkSorter mergeSort mergeSort_Permutation mergeSort_ascending.

Lemma getRunnableJobs_due_prefix_witness :
  getRunnableJobs (env := utc) (srt := mergeSorter)
    (friday0900 + 9000 * 10 ^ 9) threeJobs
  = (mkScheduler [jobDueAt 1; jobDueAt 2; jobDueAt 3],
     [jobDueAt 1; jobDueAt 2])
  /\ [jobDueAt 1; jobDueAt 2]
     ≡ₚ filter (due (friday0900 + 9000 * 10 ^ 9)) (jobs threeJobs).
Proof.
  assert (Hrun : getRunnableJobs (env := utc) (srt := mergeSorter)
                   (friday0900 + 9000 * 10 ^ 9) threeJobs
                 = (mkScheduler [jobDueAt 1; jobDueAt 2; jobDueAt 3],
                    [jobDueAt 1; jobDueAt 2]))
    by (vm_compute; reflexivity).
  split; [exact Hrun|].
  exact (proj1 (getRunnableJobs_due_prefix (H := utc) (H0 := mergeSorter)
                  _ _ _ _ Hrun)).
Defined.

(** ** [Remove] *)

(** Without a match the scan ends on the last index, or on 0 when there
    was nothing to scan. *)
Lemma removeScan_absent (name : string) (l : list Job) (k i : nat) :
  Forall (fun job => jobFunc job <> name) l ->
  removeScan name l k i
  = match l with [] => i | _ :: _ => (k + length l - 1)%nat end.
Proof.
  intros Hall. revert k i.
  induction Hall as [|job l Hjob _ IH]; intros k i; [reflexivity|].
  cbn [removeScan]. destruct (String.eqb_spec (jobFunc job) name) as [E|_];
    [contradiction|].
  rewrite IH. destruct l; cbn; lia.
Qed.

(** C1 fails on the code: on a non-empty collection, [Remove] with a
    function that names no job does not leave the collection unchanged;
    it deletes the last job. *)
Theorem Remove_absent_deletes_last (s : Scheduler) (name : string)
    (numIn : nat) :
  jobs s <> [] ->
  Forall (fun job => jobFunc job <> name) (jobs s) ->
  Remove s (Func name numIn) = Ok (mkScheduler (removelast (jobs s)))
  /\ removelast (jobs s) <> jobs s.
Proof.
  intros Hne Hall. split.
  - unfold Remove. destruct (jobs s) as [|job l] eqn:Ej; [contradiction|].
    cbn [getFunctionName]. rewrite <- Ej in *. unfold removeAt.
    rewrite (removeScan_absent name (jobs s) 0 0 Hall), Ej.
    rewrite <- Ej. cbn [Nat.add].
    assert (Hlen : (0 < length (jobs s))%nat) by (rewrite Ej; cbn; lia).
    replace (S (length (jobs s) - 1)) with (length (jobs s)) by lia.
    rewrite Nat.leb_refl, drop_all, app_nil_r. do 2 f_equal.
    rewrite removelast_firstn_len. f_equal. lia.
  - intros Heq. apply (f_equal (@length Job)) in Heq.
    destruct (jobs s) as [|job l]; [contradiction|].
    rewrite removelast_firstn_len, length_take in Heq. cbn in Heq. lia.
Qed.

Lemma Remove_absent_deletes_last_witness :
  Remove twoJobs stranger = Ok (mkScheduler [jobNamed "main.backup"]).
Proof.
  destruct (Remove_absent_deletes_last twoJobs "main.cleanup" 0)
    as [Hrem _].
  - discriminate.
  - repeat constructor; vm_compute; discriminate.
  - exact Hrem.
Defined.

(** C10: on an empty collection [Remove] does not return: slicing
    [s.jobs[1:]] panics, whatever value it is called with. *)
Theorem Remove_empty_panics (s : Scheduler) (j : Value) :
  jobs s = [] ->
  Remove s j = Panic "slice bounds out of range"
  /\ forall s', Remove s j <> Ok s'.
Proof.
  intros Hempty. unfold Remove, removeAt. rewrite Hempty. cbn.
  split; [reflexivity | discriminate].
Qed.

Lemma Remove_empty_panics_witness :
  Remove (Clear twoJobs) task = Panic "slice bounds out of range".
Proof.
  exact (proj1 (Remove_empty_panics (Clear twoJobs) task eq_refl)).
Defined.

(** * Further properties of the code *)

(** ** [formatTime] *)


(** X1: when [formatTime] reports no error, the string has exactly two
    parts around one colon, each part is an integer that [Atoi] accepts,
    and the hour and minute returned lie in 0..23 and 0..59. *)
Theorem formatTime_in_range (t : string) (h mi : Z) :
  formatTime t = (h, mi, None) ->
  0 <= h <= 23 /\ 0 <= mi <= 59
  /\ exists a b,
       strings.Split t ":" = [a; b]
       /\ strconv.Atoi a = (h, None) /\ strconv.Atoi b = (mi, None).
Proof.
  unfold formatTime.
  destruct (strings.Split t ":") as [|a [|b [|c l]]]; try discriminate.
  destruct (strconv.Atoi a) as [hour [e|]] eqn:Ea; try discriminate.
  destruct (strconv.Atoi b) as [min [e|]] eqn:Eb; try discriminate.
  destruct ((hour <? 0) || (23 <? hour) || (min <? 0) || (59 <? min))
    eqn:Er; try discriminate.
  intros [= <- <-].
  repeat (apply orb_false_elim in Er as [Er ?]).
  split; [lia|]. split; [lia|]. exists a, b. auto.
Qed.

Lemma formatTime_in_range_witness : 0 <= 10 <= 23 /\ 0 <= 30 <= 59.
Proof.
  destruct (formatTime_in_range "10:30" 10 30 eq_refl) as (Hh & Hm & _).
  split; [exact Hh | exact Hm].
Defined.

Lemma parsesBack_all :
  forallb (fun h => forallb (parsesBack h) (seq 0 60)) (seq 0 24) = true.
Proof. vm_compute. reflexivity. Qed.

(** X2: [formatTime] reads back every clock time written as two digits,
    a colon and two digits: for an hour in 0..23 and a minute in 0..59 it
    returns that hour and that minute and no error. *)
Theorem formatTime_clockString (h mi : Z) :
  0 <= h <= 23 -> 0 <= mi <= 59 ->
  formatTime (clockString h mi) = (h, mi, None).
Proof.
  intros Hh Hm.
  pose proof parsesBack_all as Hall.
  rewrite forallb_forall in Hall.
  specialize (Hall (Z.to_nat h)).
  rewrite forallb_forall in Hall.
  assert (Hin : In (Z.to_nat mi) (seq 0 60)) by (apply in_seq; lia).
  assert (Hin' : In (Z.to_nat h) (seq 0 24)) by (apply in_seq; lia).
  specialize (Hall Hin' (Z.to_nat mi) Hin).
  unfold parsesBack in Hall. rewrite !Z2Nat.id in Hall by lia.
  destruct (formatTime (clockString h mi)) as [[h' mi'] [e|]];
    [discriminate|].
  apply andb_prop in Hall as [H1 H2].
  apply Z.eqb_eq in H1, H2. subst. reflexivity.
Qed.

Lemma formatTime_clockString_witness :
  formatTime "07:05" = (7, 5, None).
Proof.
  exact (formatTime_clockString 7 5 ltac:(lia) ltac:(lia)).
Defined.

(** ** What [At] writes *)

Lemma set_lastRun_same (j : Job) : set_lastRun (lastRun j) j = j.
Proof. destruct j; reflexivity. Qed.

(** X3: [At] panics exactly when [formatTime] reports an error; when it
    returns, the only field it can have written is [lastRun] ([atTime],
    [nextRun] and [period] are never touched), and on a job whose unit is
    neither days nor weeks (for one, when [At] is called before the
    unit is set) it changes nothing at all. *)
Theorem At_writes_lastRun_only `{Env} (clock : Z) (j : Job) (t : string) :
  match At clock j t with
  | Panic _ => (formatTime t).2 <> None
  | Ok j' =>
      (formatTime t).2 = None
      /\ j' = set_lastRun (lastRun j') j
      /\ (unit j <> UnitDays -> unit j <> UnitWeeks -> j' = j)
  end.
Proof.
  unfold At. destruct (formatTime t) as [[h mi] [e|]]; cbn [snd];
    [discriminate|].
  destruct (String.eqb_spec (unit j) UnitDays) as [Ed|Ed].
  - destruct (time.Time_After _ _); (split; [reflexivity|]);
      (split; [reflexivity | contradiction]).
  - destruct (String.eqb_spec (unit j) UnitWeeks) as [Ew|Ew].
    + destruct (_ || _); (split; [reflexivity|]);
        (split; [reflexivity | contradiction]).
    + split; [reflexivity|]. split; [|reflexivity].
      symmetry. apply set_lastRun_same.
Qed.

(** ** Anchoring a weekly job with [At] *)







(** ** Arming an anchored job *)




(** ** A job on a named weekday *)



(** ** [Remove], when it returns *)

Lemma removeScan_first (name : string) (l1 l2 : list Job) (job : Job)
    (k i : nat) :
  Forall (fun x => jobFunc x <> name) l1 ->
  jobFunc job = name ->
  removeScan name (l1 ++ job :: l2) k i = (k + length l1)%nat.
Proof.
  intros Hall Hjob. revert k i.
  induction Hall as [|x l1 Hx _ IH]; intros k i; cbn [app removeScan].
  - rewrite Hjob, String.eqb_refl. cbn. lia.
  - destruct (String.eqb_spec (jobFunc x) name) as [E|_]; [contradiction|].
    rewrite IH. cbn. lia.
Qed.

Lemma removeScan_bound (name : string) (l : list Job) (k i : nat) :
  l <> [] -> (k <= removeScan name l k i < k + length l)%nat.
Proof.
  revert k i. induction l as [|x l IH]; intros k i Hne; [contradiction|].
  cbn [removeScan length].
  destruct (String.eqb (jobFunc x) name); [lia|].
  destruct l as [|y l]; [cbn; lia|].
  specialize (IH (S k) k ltac:(discriminate)). cbn [length] in *. lia.
Qed.

Lemma removeAt_inside (s : Scheduler) (i : nat) :
  (i < length (jobs s))%nat ->
  exists job,
    jobs s !! i = Some job
    /\ removeAt s i = Ok (mkScheduler (take i (jobs s) ++ drop (S i) (jobs s))).
Proof.
  intros Hi. destruct (lookup_lt_is_Some_2 (jobs s) i Hi) as [job Hjob].
  exists job. split; [exact Hjob|]. unfold removeAt.
  destruct (Nat.leb_spec (S i) (length (jobs s))); [reflexivity | lia].
Qed.

(** X7: [Remove] deletes the first job scheduled for the given function
    and no other: the jobs before and after it stay, in their order, also
    later jobs for the same function. *)
Theorem Remove_first_match (s : Scheduler) (l1 l2 : list Job) (job : Job)
    (name : string) (numIn : nat) :
  jobs s = l1 ++ job :: l2 ->
  Forall (fun x => jobFunc x <> name) l1 ->
  jobFunc job = name ->
  Remove s (Func name numIn) = Ok (mkScheduler (l1 ++ l2)).
Proof.
  intros Hjobs Hall Hjob. unfold Remove.
  assert (Hm : forall (a b : outcome Scheduler),
            match jobs s with [] => a | _ :: _ => b end = b)
    by (intros; rewrite Hjobs; destruct l1; reflexivity).
  rewrite Hm. cbn [getFunctionName]. rewrite Hjobs at 1.
  rewrite (removeScan_first name l1 l2 job 0 0 Hall Hjob). cbn [Nat.add].
  destruct (removeAt_inside s (length l1)) as (job' & _ & ->).
  { rewrite Hjobs, length_app. cbn. lia. }
  rewrite Hjobs, take_app_length. do 2 f_equal.
  change (S (length l1)) with (1 + length l1)%nat.
  rewrite Nat.add_comm, <- drop_drop, drop_app_length. reflexivity.
Qed.

Lemma Remove_first_match_witness :
  Remove twoJobs (Func "main.backup" 0)
  = Ok (mkScheduler [jobNamed "main.report"]).
Proof.
  apply (Remove_first_match twoJobs [] [jobNamed "main.report"]
           (jobNamed "main.backup") "main.backup" 0);
    [reflexivity | constructor | reflexivity].
Defined.

(** X8: [Remove] returns exactly when the collection is not empty and
    the value is of a pointer-like kind: a function, or a pointer, map,
    slice or channel, whose name [getFunctionName] gives as empty.
    Whenever it returns, exactly one job is gone, whether or not any job
    was scheduled under that name, and the others are kept in their
    order. *)
Theorem Remove_returns_one_fewer (s : Scheduler) (v : Value) :
  ((exists s', Remove s v = Ok s') <-> jobs s <> [] /\ pointerLike v)
  /\ forall s',
       Remove s v = Ok s' ->
       exists l1 job l2,
         jobs s = l1 ++ job :: l2 /\ jobs s' = l1 ++ l2.
Proof.
  assert (Hname : pointerLike v <-> exists name, getFunctionName v = Ok name).
  { destruct v as [name numIn|r|r|]; cbn; split;
      try (intros []; fail); eauto; intros [name [=]]. }
  assert (Hok : forall name, getFunctionName v = Ok name -> jobs s <> [] ->
            exists l1 job l2,
              jobs s = l1 ++ job :: l2
              /\ Remove s v = Ok (mkScheduler (l1 ++ l2))).
  { intros name Hv Hne. unfold Remove. rewrite Hv.
    destruct (jobs s) as [|x l] eqn:E; [contradiction|].
    rewrite <- E in *.
    pose proof (removeScan_bound name (jobs s) 0 0 Hne) as [_ Hb].
    cbn [Nat.add] in Hb.
    destruct (removeAt_inside s _ Hb) as (job & Hjob & ->).
    exists (take (removeScan name (jobs s) 0 0) (jobs s)), job,
           (drop (S (removeScan name (jobs s) 0 0)) (jobs s)).
    split; [|reflexivity].
    symmetry. apply take_drop_middle. exact Hjob. }
  assert (Hret : forall s', Remove s v = Ok s' ->
            jobs s <> [] /\ exists name, getFunctionName v = Ok name).
  { intros s' Hrem. unfold Remove, removeAt in Hrem.
    destruct (jobs s) as [|x l] eqn:E; [cbn in Hrem; discriminate|].
    split; [discriminate|].
    destruct (getFunctionName v) as [name|msg]; [eauto | discriminate]. }
  split; [split|].
  - intros [s' Hrem]. destruct (Hret s' Hrem) as [Hne Hv].
    split; [exact Hne | apply Hname, Hv].
  - intros [Hne [name Hv]%Hname].
    destruct (Hok name Hv Hne) as (l1 & job & l2 & _ & Hrem). eauto.
  - intros s' Hrem. destruct (Hret s' Hrem) as [Hne [name Hv]].
    destruct (Hok name Hv Hne) as (l1 & job & l2 & Hj & Hrem').
    rewrite Hrem' in Hrem. injection Hrem as <-. eauto.
Qed.

Lemma Remove_returns_one_fewer_witness :
  exists l1 job l2,
    jobs twoJobs = l1 ++ job :: l2
    /\ [jobNamed "main.backup"] = l1 ++ l2.
Proof.
  exact (proj2 (Remove_returns_one_fewer twoJobs counter)
           (mkScheduler [jobNamed "main.backup"]) eq_refl).
Defined.

(** ** [Scheduler] as a [sort.Interface] *)

Lemma Less_lookup (s : Scheduler) (i j : nat) (a b : Job) :
  jobs s !! i = Some a -> jobs s !! j = Some b ->
  Less s i j
  = Ok (time.unixNano (nextRun a) <? time.unixNano (nextRun b)).
Proof. intros Ha Hb. unfold Less. rewrite Ha, Hb. reflexivity. Qed.

(** X9: on indices in range, [Less] is the strict order of the [nextRun]
    instants, as [sort.Sort] needs: no job is before itself, if [i] is
    before [j] then [j] is not before [i], before is transitive, and so
    is being neither before nor after (jobs with the same [nextRun]).
    With an index out of range it panics. *)
Theorem Less_strict_weak_order (s : Scheduler) (i j k : nat) :
  (i < Len s)%nat -> (j < Len s)%nat -> (k < Len s)%nat ->
  Less s i i = Ok false
  /\ (Less s i j = Ok true -> Less s j i = Ok false)
  /\ (Less s i j = Ok true -> Less s j k = Ok true -> Less s i k = Ok true)
  /\ (Less s i j = Ok false -> Less s j i = Ok false ->
      Less s j k = Ok false -> Less s k j = Ok false ->
      Less s i k = Ok false /\ Less s k i = Ok false)
  /\ forall n, (Len s <= n)%nat ->
       Less s n i = Panic "index out of range"
       /\ Less s i n = Panic "index out of range".
Proof.
  unfold Len. intros Hi Hj Hk.
  destruct (lookup_lt_is_Some_2 _ _ Hi) as [a Ha].
  destruct (lookup_lt_is_Some_2 _ _ Hj) as [b Hb].
  destruct (lookup_lt_is_Some_2 _ _ Hk) as [c Hc].
  rewrite (Less_lookup s i i a a Ha Ha), (Less_lookup s i j a b Ha Hb),
    (Less_lookup s j i b a Hb Ha), (Less_lookup s j k b c Hb Hc),
    (Less_lookup s k j c b Hc Hb), (Less_lookup s i k a c Ha Hc),
    (Less_lookup s k i c a Hc Ha).
  split; [|split; [|split; [|split]]].
  - f_equal. apply Z.ltb_irrefl.
  - intros [= E%Z.ltb_lt]. f_equal. apply Z.ltb_ge. lia.
  - intros [= E1%Z.ltb_lt] [= E2%Z.ltb_lt]. f_equal. apply Z.ltb_lt. lia.
  - intros [= E1%Z.ltb_ge] [= E2%Z.ltb_ge] [= E3%Z.ltb_ge] [= E4%Z.ltb_ge].
    split; f_equal; apply Z.ltb_ge; lia.
  - intros n Hn. unfold Less. rewrite Ha, (lookup_ge_None_2 _ n) by lia.
    split; reflexivity.
Qed.

Lemma Less_strict_weak_order_witness :
  Less threeJobs 1 0 = Ok true /\ Less threeJobs 0 1 = Ok false.
Proof.
  destruct (Less_strict_weak_order threeJobs 1 0 2)
    as (_ & Hasym & _); [cbn; lia ..|].
  assert (H10 : Less threeJobs 1 0 = Ok true) by reflexivity.
  split; [exact H10 | exact (Hasym H10)].
Defined.

(** X10: on indices in range, [Swap] exchanges the two jobs and leaves
    every other position alone; the collection stays a rearrangement of
    itself, of the same length, and swapping again restores it.  With an
    index out of range it panics. *)
Theorem Swap_exchanges (s : Scheduler) (i j : nat) :
  ((i < Len s)%nat -> (j < Len s)%nat ->
   exists s',
     Swap s i j = Ok s'
     /\ jobs s' !! i = jobs s !! j
     /\ jobs s' !! j = jobs s !! i
     /\ (forall k, k <> i -> k <> j -> jobs s' !! k = jobs s !! k)
     /\ jobs s' ≡ₚ jobs s
     /\ Len s' = Len s
     /\ Swap s' i j = Ok s)
  /\ ((Len s <= i)%nat \/ (Len s <= j)%nat ->
      Swap s i j = Panic "index out of range").
Proof.
  unfold Len. split.
  - intros Hi Hj.
    destruct (lookup_lt_is_Some_2 _ _ Hi) as [a Ha].
    destruct (lookup_lt_is_Some_2 _ _ Hj) as [b Hb].
    unfold Swap. rewrite Ha, Hb. eexists. split; [reflexivity|].
    cbn [jobs].
    assert (Hat_j : <[j:=a]> (<[i:=b]> (jobs s)) !! j = Some a).
    { apply list_lookup_insert_eq. rewrite length_insert. exact Hj. }
    assert (Hat_i : <[j:=a]> (<[i:=b]> (jobs s)) !! i = Some b).
    { destruct (decide (i = j)) as [->|Hne].
      - rewrite Hat_j. congruence.
      - rewrite list_lookup_insert_ne by congruence.
        apply list_lookup_insert_eq. exact Hi. }
    split; [exact Hat_i|]. split; [exact Hat_j|].
    split.
    { intros k Hki Hkj. rewrite !list_lookup_insert_ne by congruence.
      reflexivity. }
    split; [apply (Permutation_insert_swap _ i j a b Ha Hb)|].
    split; [rewrite !length_insert; reflexivity|].
    rewrite Hat_i, Hat_j. f_equal. destruct s as [l]. cbn [jobs] in *.
    f_equal.
    apply list_eq. intros k.
    destruct (decide (k = j)) as [->|Hkj].
    { rewrite list_lookup_insert_eq by (rewrite !length_insert; lia).
      symmetry. exact Hb. }
    rewrite list_lookup_insert_ne by congruence.
    destruct (decide (k = i)) as [->|Hki].
    { rewrite list_lookup_insert_eq by (rewrite !length_insert; lia).
      symmetry. exact Ha. }
    rewrite !list_lookup_insert_ne by congruence. reflexivity.
  - intros Hout. unfold Swap.
    destruct Hout as [Hout|Hout].
    + rewrite (lookup_ge_None_2 _ i) by lia. reflexivity.
    + rewrite (lookup_ge_None_2 _ j) by lia.
      destruct (jobs s !! i); reflexivity.
Qed.

Lemma Swap_exchanges_witness :
  Swap threeJobs 0 1 = Ok (mkScheduler [jobDueAt 1; jobDueAt 3; jobDueAt 2]).
Proof.
  destruct (proj1 (Swap_exchanges threeJobs 0 1)) as (s' & HSwap & _);
    [cbn; lia ..|].
  rewrite HSwap. f_equal. unfold Swap in HSwap. cbn in HSwap.
  injection HSwap as <-. reflexivity.
Defined.

(** ** [NextRun] *)

(** X11: on an empty collection [NextRun] returns no job and the current
    instant; otherwise it returns a job of the collection whose [nextRun]
    no other job's [nextRun] precedes, together with that instant, and
    leaves the collection sorted. *)
Theorem NextRun_earliest `{Env} `{Sorter} (clock : Z) (s : Scheduler) :
  (jobs s = [] -> NextRun clock s = Ok (s, None, time.Now Local clock))
  /\ (jobs s <> [] ->
      exists s' j,
        NextRun clock s = Ok (s', Some j, nextRun j)
        /\ j ∈ jobs s
        /\ Forall (jobLe j) (jobs s)
        /\ jobs s' ≡ₚ jobs s
        /\ StronglySorted jobLe (jobs s')).
Proof.
  unfold NextRun. split.
  - intros ->. reflexivity.
  - intros Hne.
    destruct (Nat.leb_spec (length (jobs s)) 0) as [Hlen|_].
    { destruct (jobs s); [contradiction | cbn in Hlen; lia]. }
    pose proof (sort_Sort_Permutation s) as Hperm.
    pose proof (sort_Sort_StronglySorted s) as Hsorted.
    destruct (jobs (sort_Sort s)) as [|j rest] eqn:E.
    { symmetry in Hperm. apply Permutation_nil_r in Hperm. contradiction. }
    exists (sort_Sort s), j. rewrite E.
    split; [reflexivity|].
    split; [rewrite <- Hperm; left|].
    split; [|split; [exact Hperm | exact Hsorted]].
    rewrite <- Hperm. apply StronglySorted_cons in Hsorted as [Hall _].
    constructor; [unfold jobLe, notAfter; lia | exact Hall].
Qed.

Lemma NextRun_earliest_witness :
  exists s',
    NextRun (env := utc) (srt := mergeSorter) friday0900 threeJobs
    = Ok (s', Some (jobDueAt 1), nextRun (jobDueAt 1)).
Proof.
  destruct (proj2 (NextRun_earliest (H := utc) (H0 := mergeSorter)
                     friday0900 threeJobs))
    as (s' & j & HNext & _); [discriminate|].
  exists s'. rewrite HNext.
  unfold NextRun in HNext. cbn in HNext. injection HNext as _ <-.
  reflexivity.
Defined.

(** ** Armed jobs over time *)


Lemma run_panics_iff `{Env} (clock : Z) (j : Job) :
  (exists msg, run clock j = Panic msg) <-> unarmed j.
Proof.
  unfold run, unarmed.
  destruct (funcs j !! jobFunc j) as [[name numIn|r|r|]|].
  - split; [|intros Hu; exfalso; eapply Hu; reflexivity].
    intros [msg Hp]. destruct (negb _); discriminate.
  - split; [intros _ name numIn; discriminate | eauto].
  - split; [intros _ name numIn; discriminate | eauto].
  - split; [intros _ name numIn; discriminate | eauto].
  - split; [intros _ name numIn; discriminate | eauto].
Qed.

Lemma run_keeps_payload `{Env} (clock : Z) (j j' : Job) (err : option error) :
  run clock j = Ok (j', err) ->
  jobFunc j' = jobFunc j /\ funcs j' = funcs j /\ fparams j' = fparams j
  /\ unit j' = unit j /\ interval j' = interval j
  /\ startDay j' = startDay j /\ atTime j' = atTime j.
Proof.
  intros Hrun.
  destruct (run_inv clock j j' err Hrun) as [[-> _]|[-> _]]; [tauto|].
  destruct (scheduleNextRun_frame clock
              (set_lastRun (time.Now Local clock) j))
    as (Hi & Hj & Hu & Ha & Hs & Hf & Hp).
  cbn in *. tauto.
Qed.

Lemma fires_keep_payload `{Env} (j j' : Job) :
  fires j j' ->
  jobFunc j' = jobFunc j /\ funcs j' = funcs j /\ fparams j' = fparams j
  /\ unit j' = unit j /\ interval j' = interval j
  /\ startDay j' = startDay j /\ atTime j' = atTime j.
Proof.
  intros Hsteps. induction Hsteps as [j|j j1 j2 Hstep _ IH]; [tauto|].
  destruct Hstep as [clock j j1 err Hrun].
  destruct (run_keeps_payload clock j j1 err Hrun) as (? & ? & ? & ? & ? & ? & ?).
  destruct IH as (? & ? & ? & ? & ? & ? & ?).
  repeat split; congruence.
Qed.

(** X12: once [Do] has armed a job, no sequence of fire-and-reschedule
    steps disarms or reconfigures it: the bound function, its arguments,
    the unit, the interval and the weekday stay as they were, and [run]
    returns (it never panics) at every later instant. *)
Theorem armed_job_never_panics `{Env} (clock : Z) (j j1 j2 : Job)
    (jobFun : Value) (params : list Value) :
  Do clock j jobFun params = Ok j1 ->
  fires j1 j2 ->
  funcs j2 !! jobFunc j2 = Some jobFun
  /\ fparams j2 !! jobFunc j2 = Some params
  /\ unit j2 = unit j /\ interval j2 = interval j
  /\ startDay j2 = startDay j
  /\ forall clock', exists j3 err, run clock' j2 = Ok (j3, err).
Proof.
  intros HDo Hsteps.
  destruct jobFun as [name numIn| | |]; try discriminate.
  rewrite Do_Func in HDo. injection HDo as <-.
  destruct (scheduleNextRun_frame clock
              (set_payload name (Func name numIn) params j))
    as (Hi & Hj & Hu & _ & Hs & Hf & Hp).
  destruct (fires_keep_payload _ _ Hsteps)
    as (Hj' & Hf' & Hp' & Hu' & Hi' & Hs' & _).
  assert (HF : funcs j2 !! jobFunc j2 = Some (Func name numIn)).
  { rewrite Hj', Hf', Hj, Hf. cbn. apply lookup_insert_eq. }
  assert (HP : fparams j2 !! jobFunc j2 = Some params).
  { rewrite Hj', Hp', Hj, Hp. cbn. apply lookup_insert_eq. }
  split; [exact HF|]. split; [exact HP|].
  split; [rewrite Hu', Hu; reflexivity|].
  split; [rewrite Hi', Hi; reflexivity|].
  split; [rewrite Hs', Hs; reflexivity|].
  intros clock'. rewrite (run_armed clock' j2 name numIn params HF HP).
  destruct (negb _); eauto.
Qed.

Lemma armed_job_never_panics_witness :
  exists j3 err, run (env := utc) friday1200 dailyArmed = Ok (j3, err).
Proof.
  destruct (armed_job_never_panics (H := utc) friday0900 daily dailyArmed
              dailyArmed task [] eq_refl (rtc_refl _ _))
    as (_ & _ & _ & _ & _ & Hrun).
  exact (Hrun friday1200).
Defined.

(** X13: a job armed with a number of arguments other than its
    function's number of parameters never advances: every
    fire-and-reschedule step, at whatever instant, reports the error and
    returns the job as it was, so once due it stays due. *)
Theorem misbound_job_never_advances `{Env} (j : Job) (name : string)
    (numIn : nat) (params : list Value) :
  funcs j !! jobFunc j = Some (Func name numIn) ->
  fparams j !! jobFunc j = Some params ->
  length params <> numIn ->
  (forall clock,
     run clock j
     = Ok (j, Some (errorString "the number of param is not adapted")))
  /\ (forall j', fires j j' -> j' = j)
  /\ (forall clock clock' j',
        fires j j' -> due clock j -> clock <= clock' -> due clock' j').
Proof.
  intros Hf Hp Hlen.
  assert (Hrun : forall clock,
            run clock j
            = Ok (j, Some (errorString "the number of param is not adapted"))).
  { intros clock. rewrite (run_armed clock j name numIn params Hf Hp).
    destruct (Nat.eqb_spec (length params) numIn); [contradiction|].
    reflexivity. }
  assert (Hsame : forall j', fires j j' -> j' = j).
  { intros j' Hsteps.
    induction Hsteps as [j|j j1 j2 Hstep _ IH]; [reflexivity|].
    destruct Hstep as [clock j j1 err Hstep].
    rewrite Hrun in Hstep. injection Hstep as <- _.
    apply IH; assumption. }
  split; [exact Hrun|]. split; [exact Hsame|].
  intros clock clock' j' Hsteps Hdue Hle.
  rewrite (Hsame j' Hsteps). unfold due in *. lia.
Qed.

Lemma misbound_job_never_advances_witness :
  run (env := utc) friday1200 dailyMisbound
  = Ok (dailyMisbound,
        Some (errorString "the number of param is not adapted")).
Proof.
  destruct (misbound_job_never_advances (H := utc) dailyMisbound
              "main.task" 0 [Data "1"] eq_refl eq_refl)
    as (Hrun & _); [cbn; lia|].
  exact (Hrun friday1200).
Defined.

(** ** Jobs whose period is 0 *)

Lemma cachedPeriod_zero (u : string) (i : Z) :
  ~ In u fiveUnits \/ i = 0 -> cachedPeriod u i = 0.
Proof.
  intros [Hu| ->].
  - assert (Hz : unitSeconds u = 0).
    { unfold unitSeconds, fiveUnits in *. cbn [In] in Hu.
      string_cases; try reflexivity; exfalso; apply Hu; subst u; tauto. }
    unfold cachedPeriod. rewrite Hz, Z.mul_0_r. reflexivity.
  - reflexivity.
Qed.

(** X14: a job armed without a unit (no unit setter was called) or with
    interval 0 has period 0: each successful fire sets [nextRun] to the
    firing instant itself, the period stays 0, and the job is due again
    at every later reading of the clock, so it fires on every poll. *)
Theorem job_without_period_fires_every_poll `{Env} (clock : Z) (j j' : Job) :
  ~ In (unit j) fiveUnits \/ interval j = 0 ->
  period j = 0 ->
  run clock j = Ok (j', None) ->
  lastRun j' = time.Now Local clock
  /\ nextRun j' = time.Now Local clock
  /\ period j' = 0
  /\ forall clock', clock < clock' -> shouldRun clock' j' = true.
Proof.
  intros Hu Hp Hrun.
  destruct (run_inv clock j j' None Hrun) as [[_ [e [=]]]|[-> _]].
  set (j0 := set_lastRun (time.Now Local clock) j).
  assert (Hl : lastRun (scheduleNextRun clock j0) = time.Now Local clock).
  { rewrite scheduleNextRun_lastRun. cbn [lastRun j0 set_lastRun].
    rewrite Now_not_epoch. reflexivity. }
  assert (Hper : period (scheduleNextRun clock j0) = 0).
  { rewrite scheduleNextRun_period. cbn [period unit interval j0 set_lastRun].
    rewrite Hp. cbn [Z.eqb]. apply cachedPeriod_zero. exact Hu. }
  assert (Hn : nextRun (scheduleNextRun clock j0) = time.Now Local clock).
  { rewrite scheduleNextRun_nextRun, Hl, Hper.
    change (time.Duration_mul 0 time.Second) with 0.
    unfold time.Time_Add, time.Now. cbn [time.unixNano time.hasMonotonic
      time.location]. f_equal. lia. }
  split; [exact Hl|]. split; [exact Hn|]. split; [exact Hper|].
  intros clock' Hlt. unfold shouldRun. rewrite Hn.
  unfold time.Time_After, time.Now. cbn. apply Z.ltb_lt. exact Hlt.
Qed.

Lemma job_without_period_fires_every_poll_witness :
  exists j',
    run (env := utc) friday0900
      (scheduleNextRun (env := utc) friday0900
         (set_payload "main.task" task [] (NewJob (env := utc) 5)))
    = Ok (j', None)
    /\ shouldRun (env := utc) (friday0900 + 1) j' = true.
Proof.
  pose (j := scheduleNextRun (env := utc) friday0900
               (set_payload "main.task" task [] (NewJob (env := utc) 5))).
  pose (j' := scheduleNextRun (env := utc) friday0900
                (set_lastRun (time.Now (time.FixedZone 0) friday0900) j)).
  assert (Hrun : run (env := utc) friday0900 j = Ok (j', None))
    by reflexivity.
  assert (Hunit : ~ In (unit j) fiveUnits \/ interval j = 0).
  { left. vm_compute. intuition discriminate. }
  destruct (job_without_period_fires_every_poll (H := utc) friday0900 j j'
              Hunit eq_refl Hrun) as (_ & _ & _ & Hdue).
  exists j'. split; [exact Hrun|]. apply Hdue. lia.
Defined.

(** ** The first run of an interval job *)

(** X15: a fresh job (never run, period not yet computed) of a unit other
    than weeks, armed with [Do] at some instant, gets that instant as
    [lastRun] and, when its interval in nanoseconds fits [int64], a first
    [nextRun] exactly [interval] units later: it is not due when armed and
    becomes due as soon as the clock is past that instant. *)
Theorem Do_first_nextRun `{Env} (clock : Z) (j j1 : Job) (jobFun : Value)
    (params : list Value) :
  lastRun j = epoch ->
  unit j <> UnitWeeks ->
  period j = 0 ->
  0 <= interval j ->
  interval j * unitSeconds (unit j) * 10 ^ 9 < 2 ^ 63 ->
  Do clock j jobFun params = Ok j1 ->
  lastRun j1 = time.Now Local clock
  /\ time.unixNano (nextRun j1)
     = clock + interval j * unitSeconds (unit j) * 10 ^ 9
  /\ shouldRun clock j1 = false
  /\ forall clock',
       shouldRun clock' j1 = true
       <-> clock + interval j * unitSeconds (unit j) * 10 ^ 9 < clock'.
Proof.
  intros Hl Hu Hp Hi Hfit HDo.
  destruct jobFun as [name numIn| | |]; try discriminate.
  rewrite Do_Func in HDo. injection HDo as <-.
  set (j0 := set_payload name (Func name numIn) params j).
  pose proof (unitSeconds_nonneg (unit j)) as Hus.
  assert (Hlast : lastRun (scheduleNextRun clock j0) = time.Now Local clock).
  { rewrite scheduleNextRun_lastRun. cbn [lastRun unit j0 set_payload].
    rewrite Hl, Time_eqb_refl.
    destruct (String.eqb_spec (unit j) UnitWeeks); [contradiction|].
    reflexivity. }
  assert (Hper : period (scheduleNextRun clock j0)
                 = interval j * unitSeconds (unit j)).
  { rewrite scheduleNextRun_period. cbn [period unit interval j0 set_payload].
    rewrite Hp. cbn [Z.eqb]. apply cachedPeriod_exact; [exact Hi | nia]. }
  assert (Hn : time.unixNano (nextRun (scheduleNextRun clock j0))
               = clock + interval j * unitSeconds (unit j) * 10 ^ 9).
  { rewrite scheduleNextRun_nextRun, Hlast, Hper.
    unfold time.Time_Add, time.Now, time.Duration_mul, time.Second.
    cbn [time.unixNano]. change (10 ^ 9) with 1000000000 in *.
    rewrite toInt64_small by (unfold inInt64; nia). reflexivity. }
  split; [exact Hlast|]. split; [exact Hn|].
  unfold shouldRun, time.Time_After, time.Now. cbn [time.unixNano].
  rewrite Hn. split.
  - apply Z.ltb_ge. nia.
  - intros clock'. apply Z.ltb_lt.
Qed.

Lemma Do_first_nextRun_witness :
  time.unixNano (nextRun dailyArmed) = friday0900 + 86400 * 10 ^ 9
  /\ shouldRun (env := utc) friday0900 dailyArmed = false.
Proof.
  destruct (Do_first_nextRun (H := utc) friday0900 daily dailyArmed task []
              eq_refl) as (_ & Hn & Hnot & _);
    [vm_compute; discriminate | reflexivity | vm_compute; discriminate
    | reflexivity | reflexivity |].
  split; [rewrite Hn; vm_compute; reflexivity | exact Hnot].
Defined.

(** ** [RunPending] and [RunAll] *)

Lemma runEach_fired `{Env} (clock : Z) (l l' : list Job) :
  runEach clock l = Ok l' -> Forall2 (firedAt clock) l l'.
Proof.
  revert l'. induction l as [|j l IH]; intros l'; cbn [runEach].
  - intros [= <-]. constructor.
  - destruct (run clock j) as [[j' err]|msg] eqn:Hrun; [|discriminate].
    destruct (runEach clock l) as [rest|msg]; [|discriminate].
    intros [= <-]. constructor; [exists err; exact Hrun | apply IH; reflexivity].
Qed.

Lemma runEach_returns_iff `{Env} (clock : Z) (l : list Job) :
  (exists l', runEach clock l = Ok l') <-> Forall (fun j => ~ unarmed j) l.
Proof.
  induction l as [|j l IH]; cbn [runEach].
  - split; [constructor | eauto].
  - pose proof (run_panics_iff clock j) as Hp.
    destruct (run clock j) as [[j' err]|msg] eqn:Hrun.
    + assert (Hj : ~ unarmed j).
      { intros Hu. apply Hp in Hu as [msg Hmsg]. discriminate. }
      destruct (runEach clock l) as [rest|msg].
      * split; [|eauto]. intros _. constructor; [exact Hj|].
        apply IH. eauto.
      * split.
        -- intros [l' [=]].
        -- intros Hall. apply Forall_inv_tail, IH in Hall as [l' [=]].
    + split.
      * intros [l' [=]].
      * intros Hall. apply Forall_inv in Hall. exfalso. apply Hall, Hp. eauto.
Qed.

Lemma filter_all (P : Job -> Prop) `{forall j, Decision (P j)} (l : list Job) :
  Forall P l -> filter P l = l.
Proof.
  induction 1 as [|x l Hx _ IH]; [reflexivity|].
  rewrite filter_cons_True by exact Hx. f_equal. exact IH.
Qed.

Lemma filter_none (P : Job -> Prop) `{forall j, Decision (P j)}
    (l : list Job) :
  Forall (fun j => ~ P j) l -> filter P l = [].
Proof.
  induction 1 as [|x l Hx _ IH]; [reflexivity|].
  rewrite filter_cons_False by exact Hx. exact IH.
Qed.

(** How [getRunnableJobs] splits the collection. *)
Lemma getRunnableJobs_split `{Env} `{Sorter} (clock : Z) (s : Scheduler) :
  exists rest,
    jobs (getRunnableJobs clock s).1 = (getRunnableJobs clock s).2 ++ rest
    /\ (getRunnableJobs clock s).2 ≡ₚ filter (due clock) (jobs s)
    /\ Forall (due clock) (getRunnableJobs clock s).2
    /\ StronglySorted jobLe (getRunnableJobs clock s).2
    /\ Forall (fun j => ~ due clock j) rest
    /\ rest ≡ₚ filter (fun j => ~ due clock j) (jobs s).
Proof.
  unfold getRunnableJobs. cbn [fst snd].
  pose proof (sort_Sort_StronglySorted s) as Hsorted.
  pose proof (sort_Sort_Permutation s) as Hperm.
  destruct (runnablePrefix_sorted clock _ Hsorted)
    as (Hfilter & rest & Hsplit & Hrest).
  set (prefix := runnablePrefix clock (jobs (sort_Sort s))) in *.
  assert (Hdue : Forall (due clock) prefix).
  { rewrite Hfilter. apply Forall_forall. intros j Hj.
    apply list_elem_of_filter in Hj. tauto. }
  exists rest. split; [exact Hsplit|].
  split; [rewrite Hfilter; apply filter_Permutation, Hperm|].
  split; [exact Hdue|].
  split; [rewrite Hsplit in Hsorted;
          apply StronglySorted_app in Hsorted; tauto|].
  split; [exact Hrest|].
  rewrite <- Hperm, Hsplit, filter_app.
  rewrite (filter_none (fun j => ~ due clock j) prefix).
  - rewrite (filter_all _ rest Hrest). reflexivity.
  - eapply Forall_impl; [exact Hdue|]. cbn. tauto.
Qed.

(** X16: when [RunPending] returns, the collection consists of the due
    jobs, each fired once at this reading of the clock, in ascending
    order of the [nextRun] they had, followed by the jobs that were not
    due, which are untouched.  No job is lost or added. *)
Theorem RunPending_fires_the_due_jobs `{Env} `{Sorter} (clock : Z)
    (s s' : Scheduler) :
  RunPending clock s = Ok s' ->
  exists fired ran rest,
    jobs s' = ran ++ rest
    /\ fired ≡ₚ filter (due clock) (jobs s)
    /\ StronglySorted jobLe fired
    /\ Forall2 (firedAt clock) fired ran
    /\ rest ≡ₚ filter (fun j => ~ due clock j) (jobs s)
    /\ length (jobs s') = length (jobs s).
Proof.
  unfold RunPending.
  destruct (getRunnableJobs_split clock s)
    as (rest & Hsplit & Hexact & _ & Hsorted & _ & Hrest).
  pose proof (sort_Sort_Permutation s) as Hperm.
  destruct (getRunnableJobs clock s) as [s1 runnable] eqn:E.
  cbn [fst snd] in *.
  destruct (runEach clock runnable) as [ran|msg] eqn:Hran; [|discriminate].
  intros [= <-]. cbn [jobs].
  apply runEach_fired in Hran.
  exists runnable, ran, rest.
  rewrite Hsplit, drop_app_length.
  split; [reflexivity|]. split; [exact Hexact|]. split; [exact Hsorted|].
  split; [exact Hran|]. split; [exact Hrest|].
  assert (Hs1 : jobs s1 ≡ₚ jobs s).
  { unfold getRunnableJobs in E. injection E as <- _. exact Hperm. }
  rewrite <- (Permutation_length Hs1), Hsplit, !length_app.
  rewrite (Forall2_length _ _ _ Hran). reflexivity.
Qed.

Lemma RunPending_fires_the_due_jobs_witness :
  exists s' fired ran rest,
    RunPending (env := utc) (srt := mergeSorter)
      (friday0900 + 90000 * 10 ^ 9) twoJobs = Ok s'
    /\ jobs s' = ran ++ rest
    /\ Forall2 (firedAt (H := utc) (friday0900 + 90000 * 10 ^ 9)) fired ran.
Proof.
  assert (Hrun : exists s',
            RunPending (env := utc) (srt := mergeSorter)
              (friday0900 + 90000 * 10 ^ 9) twoJobs = Ok s')
    by (eexists; vm_compute; reflexivity).
  destruct Hrun as [s' Hrun].
  destruct (RunPending_fires_the_due_jobs (H := utc) (H0 := mergeSorter)
              _ _ _ Hrun) as (fired & ran & rest & Hj & _ & _ & Hf & _).
  exists s', fired, ran, rest. split; [exact Hrun|].
  split; [exact Hj | exact Hf].
Defined.

(** X17: [RunPending] returns exactly when every due job is armed; one
    due job that [Do] never armed makes the whole call panic.  A job
    that is not due is not looked at: unarmed, it does no harm yet. *)
Theorem RunPending_returns_iff `{Env} `{Sorter} (clock : Z) (s : Scheduler) :
  (exists s', RunPending clock s = Ok s')
  <-> Forall (fun j => due clock j -> ~ unarmed j) (jobs s).
Proof.
  unfold RunPending.
  destruct (getRunnableJobs_split clock s)
    as (rest & _ & Hexact & _ & _ & _ & _).
  destruct (getRunnableJobs clock s) as [s1 runnable]. cbn [fst snd] in *.
  pose proof (runEach_returns_iff clock runnable) as Hret.
  assert (Hiff : Forall (fun j => ~ unarmed j) runnable
                 <-> Forall (fun j => due clock j -> ~ unarmed j) (jobs s)).
  { rewrite Hexact, !Forall_forall. split.
    - intros Hall j Hj Hd. apply Hall, list_elem_of_filter. tauto.
    - intros Hall j Hj. apply list_elem_of_filter in Hj as [Hd Hj]. eauto. }
  rewrite <- Hiff, <- Hret.
  destruct (runEach clock runnable) as [ran|msg]; split.
  - eauto.
  - eauto.
  - intros [s' [=]].
  - intros [l' [=]].
Qed.

(** X18: a job made by [Every] is in the collection at once, with
    [nextRun] at the Unix epoch and nothing bound to it: until it is
    armed, [RunPending] at any instant after the epoch panics. *)
Theorem Every_unarmed_makes_RunPending_panic `{Env} `{Sorter} (clock : Z)
    (s : Scheduler) (interval : Z) :
  0 < clock ->
  jobs (Every s interval).1 = jobs s ++ [NewJob interval]
  /\ (Every s interval).2 = NewJob interval
  /\ exists msg, RunPending clock (Every s interval).1 = Panic msg.
Proof.
  intros Hclock. split; [reflexivity|]. split; [reflexivity|].
  unfold RunPending.
  destruct (getRunnableJobs_split clock (Every s interval).1)
    as (rest & _ & Hexact & _ & _ & _ & _).
  destruct (getRunnableJobs clock (Every s interval).1) as [s1 runnable].
  cbn [fst snd] in *.
  destruct (runEach clock runnable) as [ran|msg] eqn:Hran; [|eauto].
  exfalso.
  assert (Hret : exists l', runEach clock runnable = Ok l') by eauto.
  apply runEach_returns_iff in Hret. rewrite Forall_forall in Hret.
  apply (Hret (NewJob interval)).
  - rewrite Hexact. apply list_elem_of_filter. split.
    + unfold due, NewJob, epoch, time.Unix. cbn. exact Hclock.
    + unfold Every. cbn [fst jobs]. apply elem_of_app. right. left.
  - intros name numIn. unfold NewJob. cbn. rewrite lookup_empty. discriminate.
Qed.

Lemma Every_unarmed_makes_RunPending_panic_witness :
  exists msg,
    RunPending (env := utc) (srt := mergeSorter) friday0900
      (Every (env := utc) twoJobs 5).1 = Panic msg.
Proof.
  destruct (Every_unarmed_makes_RunPending_panic (H := utc)
              (H0 := mergeSorter) friday0900 twoJobs 5)
    as (_ & _ & Hpanic); [reflexivity|].
  exact Hpanic.
Defined.

Lemma wellBound_fired `{Env} (clock : Z) (j j' : Job) :
  wellBound j -> firedAt clock j j' ->
  j' = scheduleNextRun clock (set_lastRun (time.Now Local clock) j).
Proof.
  intros (name & params & Hf & Hp) [err Hrun].
  rewrite (run_armed clock j name (length params) params Hf Hp) in Hrun.
  rewrite Nat.eqb_refl in Hrun. cbn in Hrun. injection Hrun as <- _.
  reflexivity.
Qed.

Lemma wellBound_not_unarmed (j : Job) : wellBound j -> ~ unarmed j.
Proof. intros (name & params & Hf & _) Hu. eapply Hu, Hf. Qed.

Lemma fired_not_due `{Env} (clock : Z) (j j' : Job) :
  wellBound j -> periodFits j -> firedAt clock j j' ->
  lastRun j' = time.Now Local clock /\ ~ due clock j'.
Proof.
  intros Hw Hs Hfired. rewrite (wellBound_fired clock j j' Hw Hfired).
  set (j0 := set_lastRun (time.Now Local clock) j).
  assert (Hl : lastRun (scheduleNextRun clock j0) = time.Now Local clock).
  { rewrite scheduleNextRun_lastRun. cbn [lastRun j0 set_lastRun].
    rewrite Now_not_epoch. reflexivity. }
  split; [exact Hl|].
  pose proof (scheduleNextRun_notAfter clock j0 Hs) as Hle.
  unfold notAfter in Hle. rewrite Hl in Hle. cbn in Hle.
  unfold due. lia.
Qed.

(** X19: [RunPending] does not catch up.  When every job is well bound
    and its period in force (the cached [period] when it is not zero,
    else the one computed on [uint64] from the unit and the interval) is
    not negative and, times 10^9, is below 2^63, [RunPending] returns and
    afterwards no job is due at that reading of the clock, however many
    periods a job had fallen behind: a second poll at the same instant
    finds nothing to run and fires nothing. *)
Theorem RunPending_leaves_nothing_due `{Env} `{Sorter} (clock : Z)
    (s : Scheduler) :
  Forall (fun j => wellBound j /\ periodFits j) (jobs s) ->
  exists s',
    RunPending clock s = Ok s'
    /\ Forall (fun j => ~ due clock j) (jobs s')
    /\ (getRunnableJobs clock s').2 = []
    /\ exists s'', RunPending clock s' = Ok s'' /\ jobs s'' ≡ₚ jobs s'.
Proof.
  intros Hall.
  assert (Hsettled : forall s0 : Scheduler,
            Forall (fun j => ~ due clock j) (jobs s0) ->
            (getRunnableJobs clock s0).2 = []).
  { intros s0 Hnone.
    destruct (getRunnableJobs_split clock s0)
      as (rest & _ & Hexact & _ & _ & _ & _).
    rewrite (filter_none (due clock) _ Hnone) in Hexact.
    apply Permutation_nil_r in Hexact. exact Hexact. }
  unfold RunPending at 1.
  destruct (getRunnableJobs_split clock s)
    as (rest & Hsplit & Hexact & _ & _ & Hrest & _).
  destruct (getRunnableJobs clock s) as [s1 runnable]. cbn [fst snd] in *.
  assert (Hin : Forall (fun j => wellBound j /\ periodFits j) runnable).
  { rewrite Forall_forall in *. intros j Hj. apply Hall.
    rewrite Hexact in Hj. apply list_elem_of_filter in Hj. tauto. }
  destruct (proj2 (runEach_returns_iff clock runnable)) as [ran Hran].
  { eapply Forall_impl; [exact Hin|]. cbn.
    intros j [Hw _]. apply wellBound_not_unarmed, Hw. }
  rewrite Hran. apply runEach_fired in Hran.
  eexists. split; [reflexivity|]. cbn [jobs].
  rewrite Hsplit, drop_app_length.
  assert (Hnone : Forall (fun j => ~ due clock j) (ran ++ rest)).
  { apply Forall_app. split; [|exact Hrest].
    eapply Forall2_Forall_r; [exact Hran|].
    eapply Forall_impl; [exact Hin|]. cbn.
    intros j [Hw Hs] j' Hfired.
    apply (fired_not_due clock j j' Hw Hs Hfired). }
  split; [exact Hnone|].
  split; [apply Hsettled; exact Hnone|].
  unfold RunPending.
  pose proof (Hsettled (mkScheduler (ran ++ rest)) Hnone) as Hnil.
  pose proof (sort_Sort_Permutation (mkScheduler (ran ++ rest))) as Hperm.
  unfold getRunnableJobs in *. cbn [fst snd jobs] in *.
  rewrite Hnil. cbn [runEach length drop app].
  eexists. split; [reflexivity|]. exact Hperm.
Qed.

Lemma RunPending_leaves_nothing_due_witness :
  exists s',
    RunPending (env := utc) (srt := mergeSorter)
      (friday0900 + 900000 * 10 ^ 9) twoJobs = Ok s'
    /\ (getRunnableJobs (env := utc) (srt := mergeSorter)
          (friday0900 + 900000 * 10 ^ 9) s').2 = [].
Proof.
  destruct (RunPending_leaves_nothing_due (H := utc) (H0 := mergeSorter)
              (friday0900 + 900000 * 10 ^ 9) twoJobs)
    as (s' & Hrun & _ & Hnil & _).
  - assert (Hfit : forall name, periodFits (jobNamed name)).
    { intros name. unfold periodFits. vm_compute.
      split; [discriminate | reflexivity]. }
    constructor; [|constructor; [|constructor]];
      (split; [|apply Hfit]).
    + exists "main.backup", []. split; reflexivity.
    + exists "main.report", []. split; reflexivity.
  - exists s'. split; [exact Hrun | exact Hnil].
Defined.

(** X20: [RunAll] fires every job once, due or not, in the order of the
    collection, and keeps that order; it returns exactly when every job
    is armed.  A well-bound job comes out with [lastRun] at this reading
    of the clock, so its schedule restarts from now. *)
Theorem RunAll_fires_every_job `{Env} (clock : Z) (s : Scheduler) :
  ((exists s', RunAll clock s = Ok s')
   <-> Forall (fun j => ~ unarmed j) (jobs s))
  /\ forall s',
       RunAll clock s = Ok s' ->
       Forall2 (firedAt clock) (jobs s) (jobs s')
       /\ forall i j j',
            jobs s !! i = Some j -> jobs s' !! i = Some j' ->
            wellBound j -> lastRun j' = time.Now Local clock.
Proof.
  unfold RunAll. split.
  - rewrite <- (runEach_returns_iff clock).
    destruct (runEach clock (jobs s)) as [ran|msg]; split.
    + eauto.
    + eauto.
    + intros [s' [=]].
    + intros [l' [=]].
  - intros s' Hrun.
    destruct (runEach clock (jobs s)) as [ran|msg] eqn:Hran; [|discriminate].
    injection Hrun as <-. cbn [jobs].
    apply runEach_fired in Hran. split; [exact Hran|].
    intros i j j' Hj Hj' Hw.
    pose proof (Forall2_lookup_lr _ _ _ _ _ _ Hran Hj Hj') as Hfired.
    rewrite (wellBound_fired clock j j' Hw Hfired).
    rewrite scheduleNextRun_lastRun. cbn [lastRun set_lastRun].
    rewrite Now_not_epoch. reflexivity.
Qed.

Lemma RunAll_fires_every_job_witness :
  exists s',
    RunAll (env := utc) friday0900 twoJobs = Ok s'
    /\ Forall2 (firedAt (H := utc) friday0900) (jobs twoJobs) (jobs s').
Proof.
  assert (Hrun : exists s', RunAll (env := utc) friday0900 twoJobs = Ok s')
    by (eexists; vm_compute; reflexivity).
  destruct Hrun as [s' Hrun]. exists s'. split; [exact Hrun|].
  exact (proj1 (proj2 (RunAll_fires_every_job (H := utc) friday0900 twoJobs)
                  s' Hrun)).
Defined.

(** ** Rescheduling twice *)

Lemma Job_eq (a b : Job) :
  interval a = interval b -> jobFunc a = jobFunc b -> unit a = unit b ->
  atTime a = atTime b -> lastRun a = lastRun b -> nextRun a = nextRun b ->
  period a = period b -> startDay a = startDay b -> funcs a = funcs b ->
  fparams a = fparams b -> a = b.
Proof. destruct a, b; cbn; intros; subst; reflexivity. Qed.

(** X21: rescheduling is idempotent.  Once [scheduleNextRun] has left a
    [lastRun] that is not the never-run sentinel, calling it again, at
    whatever instant, changes nothing: [lastRun], the cached period and
    [nextRun] stay as they are until the job is fired or anchored
    again. *)
Theorem scheduleNextRun_idempotent `{Env} (clock clock' : Z) (j : Job) :
  time.Time_eqb (lastRun (scheduleNextRun clock j)) epoch = false ->
  scheduleNextRun clock' (scheduleNextRun clock j) = scheduleNextRun clock j.
Proof.
  intros Hne. set (j1 := scheduleNextRun clock j) in *.
  destruct (scheduleNextRun_frame clock' j1)
    as (Hi & Hj & Hu & Ha & Hs & Hf & Hp).
  assert (Hl : lastRun (scheduleNextRun clock' j1) = lastRun j1).
  { rewrite scheduleNextRun_lastRun, Hne. reflexivity. }
  assert (Hper1 : period j1
                  = if period j =? 0 then cachedPeriod (unit j) (interval j)
                    else period j)
    by apply scheduleNextRun_period.
  destruct (scheduleNextRun_frame clock j) as (Hi1 & _ & Hu1 & _).
  fold j1 in Hi1, Hu1.
  assert (Hper : period (scheduleNextRun clock' j1) = period j1).
  { rewrite scheduleNextRun_period.
    destruct (Z.eqb_spec (period j1) 0) as [E|E]; [|reflexivity].
    rewrite Hu1, Hi1, E.
    destruct (Z.eqb_spec (period j) 0) as [E0|E0]; congruence. }
  apply Job_eq; try assumption.
  rewrite scheduleNextRun_nextRun, Hl, Hper.
  symmetry. apply scheduleNextRun_nextRun.
Qed.

Lemma scheduleNextRun_idempotent_witness :
  scheduleNextRun (env := utc) friday1200 dailyArmed = dailyArmed.
Proof.
  apply (scheduleNextRun_idempotent (H := utc) friday0900 friday1200
           (set_payload "main.task" task [] daily)).
  reflexivity.
Defined.
